(** * Transcoding a large experiment: discovery, metadata, job generation

    A shallow embedding of [docs/_build/jupyter_execute/transcoding-large-experiments.py]:
    the video discovery filter (cells In[58], In[59]), the metadata table and
    its duration aggregate (In[60] to In[66]), the generation of
    [transcode.sh] (In[74]) and the verification table (In[76]).

    Conventions of the embedding:
    - a [pathlib.Path] is its anchor flag and its tuple of names; the root
      [//], which no path of the notebook has, is not represented;
    - the file system is the list of the paths that exist, in traversal order;
    - [cv2.VideoCapture(..).get] and [stat().st_size] are external, and taken
      as variables of a section;
    - a [float] is a binary64 number (primitive floats);
    - a line of [transcode.sh] is read by the shell: the shell's splitting of
      a line into words is modelled for blanks, single quotes and [&&]. *)

From Stdlib Require Import ZArith List Bool String Ascii Floats Lia.
Import ListNotations.

Local Open Scope string_scope.
Local Open Scope list_scope.

(** ** Python strings *)

Module Str.

(** [s.startswith(pre)] *)
Definition startswith (s pre : string) : bool := String.prefix pre s.

(** [s.split(sep)] for a one-character separator: never the empty list. *)
Fixpoint split (sep : ascii) (s : string) : list string :=
  match s with
  | EmptyString => [EmptyString]
  | String c s' =>
      if Ascii.eqb c sep then EmptyString :: split sep s'
      else match split sep s' with
           | h :: t => String c h :: t
           | [] => [String c EmptyString]
           end
  end.

(** [fnmatch.fnmatchcase(name, pat)] for patterns made of literal
    characters, [*] and [?] (the patterns of the notebook have no
    bracket expression). *)
Fixpoint fnmatch (pat : string) : string -> bool :=
  match pat with
  | EmptyString =>
      fun name => match name with EmptyString => true | _ => false end
  | String p pat' =>
      if Ascii.eqb p "*" then
        fix star (name : string) : bool :=
          fnmatch pat' name
          || match name with
             | EmptyString => false
             | String _ name' => star name'
             end
      else if Ascii.eqb p "?" then
        fun name =>
          match name with
          | EmptyString => false
          | String _ name' => fnmatch pat' name'
          end
      else
        fun name =>
          match name with
          | EmptyString => false
          | String c name' => Ascii.eqb p c && fnmatch pat' name'
          end
  end.

(** Patterns without wildcard. *)
Definition plain (c : ascii) : bool := negb (Ascii.eqb c "*" || Ascii.eqb c "?").

Fixpoint literal (pat : string) : bool :=
  match pat with
  | EmptyString => true
  | String c pat' => plain c && literal pat'
  end.

(** ASCII lower-casing, used only to phrase a case-insensitive comparison. *)
Definition lower_ascii (c : ascii) : ascii :=
  let n := nat_of_ascii c in
  if (65 <=? n)%nat && (n <=? 90)%nat then ascii_of_nat (n + 32) else c.

Fixpoint lower (s : string) : string :=
  match s with
  | EmptyString => EmptyString
  | String c s' => String (lower_ascii c) (lower s')
  end.

(** [s.endswith(suf)] *)
Fixpoint endswith (s suf : string) : bool :=
  String.eqb s suf
  || match s with
     | EmptyString => false
     | String _ s' => endswith s' suf
     end.

End Str.

(** ** Python numbers *)

Module Py.

(** An [int] converted to [float]: the nearest binary64 number, ties to even. *)
Definition float_of_int (z : Z) : float :=
  SF2Prim (binary_normalize prec emax z 0 false).

(** [round(x, 1)]: the float nearest to the decimal with one digit after the
    point that is nearest to the exact value of [x], ties to the even digit.
    NaN, the infinities and the zeros are their own rounding, and so are the
    floats whose tenfold reaches [2^53]: their neighbours are more than a
    tenth apart. *)
Definition round1 (x : float) : float :=
  match Prim2SF x with
  | S754_finite s m e =>
      if (0 <=? e)%Z then x
      else
        let den := Z.shiftl 1 (- e) in
        let num := (10 * Zpos m)%Z in
        let q := (num / den)%Z in
        let r := (num mod den)%Z in
        let n := if (2 * r <? den)%Z then q
                 else if (den <? 2 * r)%Z then (q + 1)%Z
                 else if Z.even q then q else (q + 1)%Z in
        if (n <? 2 ^ 53)%Z then
          let y := (float_of_int n / 10)%float in
          if s then (- y)%float else y
        else x
  | _ => x
  end.

End Py.

(** ** pathlib *)

Module Pathlib.

(** A pure POSIX path: [root] says whether the path is anchored at [/],
    [names] are the components after the anchor. *)
Record Path : Type := mkPath { root : bool; names : list string }.

(** The one kind of string the record has no path for: [pathlib] reads a
    string that starts with exactly two slashes as a path with the root [//],
    which POSIX leaves to the implementation.  No string the notebook turns
    into a path starts that way. *)
Definition anchored_twice (s : string) : bool :=
  Str.startswith s "//" && negb (Str.startswith s "///").

(** [Path(s)], for a string that is not [anchored_twice]: one slash, or three
    and more, anchor the path at [/]; empty components and [.] components are
    dropped. *)
Definition parse (s : string) : Path :=
  mkPath (Str.startswith s "/")
         (filter (fun n => negb (String.eqb n "" || String.eqb n "."))
                 (Str.split "/" s)).

(** [p.parts] *)
Definition parts (p : Path) : list string :=
  if root p then "/" :: names p else names p.

(** [a / b] *)
Definition joinpath (a b : Path) : Path :=
  if root b then b else mkPath (root a) (names a ++ names b).

(** [a / s] for a string [s] *)
Definition joinstr (a : Path) (s : string) : Path := joinpath a (parse s).

Fixpoint strip_prefix (pre l : list string) : option (list string) :=
  match pre, l with
  | [], _ => Some l
  | _ :: _, [] => None
  | x :: pre', y :: l' =>
      if String.eqb x y then strip_prefix pre' l' else None
  end.

(** [p.relative_to(base)]; [None] is the [ValueError] raised when [p] does
    not start with [base]. *)
Definition relative_to (p base : Path) : option Path :=
  if Bool.eqb (root p) (root base) then
    match strip_prefix (names base) (names p) with
    | Some rest => Some (mkPath false rest)
    | None => None
    end
  else None.

(** [p.parent] *)
Definition parent (p : Path) : Path := mkPath (root p) (removelast (names p)).

(** [p.parts[-1]]; [None] is the [IndexError] on the empty tuple. *)
Definition last_part (p : Path) : option string :=
  match rev (parts p) with
  | [] => None
  | x :: _ => Some x
  end.

(** [str(p)] *)
Definition str (p : Path) : string :=
  match root p, names p with
  | false, [] => "."
  | true, ns => "/" ++ String.concat "/" ns
  | false, ns => String.concat "/" ns
  end.

(** [p == q] *)
Definition eqb (p q : Path) : bool :=
  Bool.eqb (root p) (root q)
  && if list_eq_dec string_dec (names p) (names q) then true else false.

(** [p] lies strictly below the directory [dir]. *)
Definition below (dir p : Path) : bool :=
  match relative_to p dir with
  | Some rest => match names rest with [] => false | _ :: _ => true end
  | None => false
  end.

End Pathlib.

Import Pathlib.

(** ** The shell that reads [transcode.sh]

    How [bash] cuts one line into simple commands and words, for the
    characters the generated lines are written with: blanks separate words,
    single quotes keep everything up to the next single quote, [&&] chains
    two commands, a newline ends the line.  The other characters the shell
    gives a meaning to when they stand outside quotes, a lone [&] and an
    unclosed quote are outside the model ([None]). *)

Module Sh.

Inductive token : Type :=
| Word (w : string)
| AndIf.

Definition newline : ascii := ascii_of_nat 10.

Fixpoint mem (c : ascii) (s : string) : bool :=
  match s with
  | EmptyString => false
  | String d s' => Ascii.eqb c d || mem c s'
  end.

(** Characters with a meaning of their own outside quotes, not modelled. *)
Definition meta (c : ascii) : bool :=
  mem c "\$`;|<>()*?[]~#!{}"
  || Ascii.eqb c (ascii_of_nat 34) || Ascii.eqb c (ascii_of_nat 9).





Definition flush (cur : option string) (k : list token) : list token :=
  match cur with
  | Some w => Word w :: k
  | None => k
  end.

Definition push (cur : option string) (c : ascii) : option string :=
  match cur with
  | Some w => Some (w ++ String c EmptyString)%string
  | None => Some (String c EmptyString)
  end.

Definition open_word (cur : option string) : option string :=
  match cur with
  | Some w => Some w
  | None => Some EmptyString
  end.

Fixpoint lex (quoted : bool) (cur : option string) (s : string)
  : option (list token) :=
  match s with
  | EmptyString => if quoted then None else Some (flush cur [])
  | String c s' =>
      if quoted then
        if Ascii.eqb c "'" then lex false cur s' else lex true (push cur c) s'
      else if Ascii.eqb c "'" then lex true (open_word cur) s'
      else if Ascii.eqb c " " then option_map (flush cur) (lex false None s')
      else if Ascii.eqb c newline then Some (flush cur [])
      else if Ascii.eqb c "&" then
        match s' with
        | String d s'' =>
            if Ascii.eqb d "&"
            then option_map (fun k => flush cur (AndIf :: k)) (lex false None s'')
            else None
        | EmptyString => None
        end
      else if meta c then None
      else lex false (push cur c) s'
  end.

(** The simple commands of an and-list, each as its list of words. *)
Fixpoint simple_commands (ts : list token) : list (list string) :=
  match ts with
  | [] => [[]]
  | AndIf :: ts' => [] :: simple_commands ts'
  | Word w :: ts' =>
      match simple_commands ts' with
      | c :: cs => (w :: c) :: cs
      | [] => [[w]]
      end
  end.

Definition commands (line : string) : option (list (list string)) :=
  option_map simple_commands (lex false None line).

(** What a simple command creates or overwrites: the operands of
    [mkdir -p], and the output file of [ffmpeg] (its last word). *)
Definition write_targets (argv : list string) : list string :=
  match argv with
  | "mkdir" :: "-p" :: operands => operands
  | "ffmpeg" :: args => match rev args with [] => [] | out :: _ => [out] end
  | _ => []
  end.

End Sh.

(** ** The notebook *)

(** *** In[53]: the drives *)

Definition MOUNT_POINT : Path := parse "/media/andre".

Definition DRIVES : list string := ["11D9-5C57"; "5161-4A93"; "9B57-8640"].

Definition OUTPUT_DRIVE : Path := joinstr MOUNT_POINT "maternal".

(** *** In[58]: the two filters *)

Fixpoint no_part_startswith (pre : string) (ps : list string) : bool :=
  match ps with
  | [] => true
  | part :: ps' =>
      if Str.startswith part pre then false else no_part_startswith pre ps'
  end.

Definition is_visible (filepath : Path) : bool :=
  no_part_startswith "." (parts filepath).

Definition is_not_recycled (filepath : Path) : bool :=
  no_part_startswith "$RECYCLE" (parts filepath).

(** *** In[60]: what OpenCV reports for a file

    [int(cap.get(cv2.CAP_PROP_FRAME_COUNT))] and its like are read as the
    integers they produce; the frame rate stays a binary64 number. *)

Record Capture : Type := mkCapture {
  CAP_PROP_FRAME_COUNT : Z;
  CAP_PROP_FPS : float;
  CAP_PROP_FRAME_WIDTH : Z;
  CAP_PROP_FRAME_HEIGHT : Z
}.

(** A row of [metadata_df].  The column [frames] holds integers until In[64]
    stores [None] in some of its cells. *)
Record Row : Type := mkRow {
  file : Path;
  filetype : string;
  frames : option Z;
  fps : float;
  width : Z;
  height : Z
}.

(** [video.parts[-1].split('.')[-1]] *)
Definition filetype_of (video : Path) : string :=
  match last_part video with
  | Some name => last (Str.split "." name) EmptyString
  | None => EmptyString
  end.

(** *** pandas: the operations the notebook applies to [metadata_df] *)

(** An integer cell read as a binary64 number; a missing cell is NaN. *)
Definition cell_value (c : option Z) : float :=
  match c with
  | Some z => Py.float_of_int z
  | None => nan
  end.

(** [df.frames / df.fps] *)
Definition durations (df : list Row) : list float :=
  map (fun r => (cell_value (frames r) / fps r)%float) df.

(** [numpy]'s sum of a contiguous array of binary64 numbers, as the loop of
    [add.reduce] runs it: the identity zero plus the pairwise sum of the
    array.  Below eight elements the pairwise sum adds from left to right; up
    to 128 elements it keeps eight running sums, one per position modulo
    eight, adds them in pairs and then adds the elements left over; a longer
    array is cut in two, at a multiple of eight, and the sums of the two
    pieces are added. *)
Module Numpy.

(** [for (...) res += a[i]] *)
Definition add_to (res : float) (a : list float) : float :=
  fold_left PrimFloat.add a res.

(** [r[j] += a[i + j]] for the eight [j], as long as eight elements are left:
    [k] counts the groups of eight still to add. *)
Fixpoint add_lanes (k : nat) (r a : list float) : list float :=
  match k with
  | O => r
  | S k' =>
      add_lanes k'
        (map (fun x : float * float => (fst x + snd x)%float)
             (combine r (firstn 8 a)))
        (skipn 8 a)
  end.

(** The branch for eight to 128 elements. *)
Definition block_sum (a : list float) : float :=
  let n := List.length a in
  let r := add_lanes (n / 8 - 1) (firstn 8 a) (skipn 8 a) in
  let res :=
    match r with
    | [r0; r1; r2; r3; r4; r5; r6; r7] =>
        (((r0 + r1) + (r2 + r3)) + ((r4 + r5) + (r6 + r7)))%float
    | _ => nan
    end in
  add_to res (skipn (8 * (n / 8)) a).

(** [pairwise_sum]: the recursion halves the array, so the length of the
    array is fuel enough. *)
Fixpoint pairwise_sum (fuel : nat) (a : list float) : float :=
  let n := List.length a in
  if (n <? 8)%nat then add_to neg_zero a
  else if (n <=? 128)%nat then block_sum a
  else
    match fuel with
    | O => block_sum a
    | S fuel' =>
        let n2 := (n / 2 - (n / 2) mod 8)%nat in
        (pairwise_sum fuel' (firstn n2 a) + pairwise_sum fuel' (skipn n2 a))%float
    end.

Definition pairwise (a : list float) : float :=
  pairwise_sum (List.length a) a.

(** [a.sum()] *)
Definition sum (a : list float) : float := (zero + pairwise a)%float.

End Numpy.

(** One cell of [values[mask] = 0]: a NaN becomes zero. *)
Definition nan_to_zero (x : float) : float := if is_nan x then zero else x.

(** [Series.sum()] with its default [skipna=True]: pandas puts zero in the
    place of every NaN entry and hands the array to [numpy]. *)
Definition nansum (xs : list float) : float := Numpy.sum (map nan_to_zero xs).

(** In[61], In[65], In[66]: [(metadata_df.frames / metadata_df.fps).sum()] *)
Definition total_seconds (df : list Row) : float := nansum (durations df).

(** The same cells with their error: a table made from no record has no
    column, and [metadata_df.frames] raises ([None]). *)
Definition total_seconds_cell (df : list Row) : option float :=
  match df with
  | [] => None
  | _ :: _ => Some (total_seconds df)
  end.




(** [metadata_df.frames < 0]: a missing cell compares false. *)
Definition frames_negative (r : Row) : bool :=
  match frames r with
  | Some z => (z <? 0)%Z
  | None => false
  end.

Definition outlier_rows (df : list Row) : list bool := map frames_negative df.

Definition set_frames (r : Row) (v : option Z) : Row :=
  mkRow (file r) (filetype r) v (fps r) (width r) (height r).

(** [df.loc[mask, 'frames'] = None] *)
Definition loc_set_frames_None (mask : list bool) (df : list Row) : list Row :=
  map (fun br : bool * Row =>
         if fst br then set_frames (snd br) None else snd br)
      (combine mask df).

(** [df.loc[mask]] *)
Definition loc (mask : list bool) (df : list Row) : list Row :=
  map snd (filter (fun br : bool * Row => fst br) (combine mask df)).

(** *** In[74]: one line of [transcode.sh] per video *)

Definition output_filepath (video : Path) : option Path :=
  match relative_to video MOUNT_POINT with
  | Some relative_path => Some (joinpath OUTPUT_DRIVE relative_path)
  | None => None
  end.

Definition format_cmd (dir input output : string) : string :=
  ("mkdir -p " ++ dir ++ " &&"
   ++ "ffmpeg -y -hwaccel cuda -hwaccel_output_format cuda -extra_hw_frames 4 -i '"
   ++ input ++ "' "
   ++ "-c:v h264_nvenc -crf 24 '" ++ output ++ "'"
   ++ String Sh.newline EmptyString)%string.

Definition cmd (video : Path) : option string :=
  match output_filepath video with
  | Some out => Some (format_cmd (str (parent out)) (str video) (str out))
  | None => None
  end.

Fixpoint transcode_lines (videos : list Path) : option (list string) :=
  match videos with
  | [] => Some []
  | video :: rest =>
      match cmd video, transcode_lines rest with
      | Some line, Some lines => Some (line :: lines)
      | _, _ => None
      end
  end.




(** *** In[76]: the original of a transcoded video *)

Definition original_video (transcoded_video : Path) : option Path :=
  match relative_to transcoded_video OUTPUT_DRIVE with
  | Some relative_path => Some (joinpath MOUNT_POINT relative_path)
  | None => None
  end.

(** A value of the dictionary [_metadata] of In[76]. *)
Inductive value : Type :=
| VPath (p : Path)
| VInt (z : Z)
| VFloat (x : float).

Fixpoint dict_get (key : string) (d : list (string * value)) : option value :=
  match d with
  | [] => None
  | (k, v) :: d' => if String.eqb k key then Some v else dict_get key d'
  end.

(** The last component of [p] matches the pattern [pat]. *)
Definition name_matches (pat : string) (p : Path) : bool :=
  match last_part p with
  | Some name => Str.fnmatch pat name
  | None => false
  end.

Section Notebook.

(** The paths that exist, in the order a traversal meets them. *)
Variable fs : list Path.

(** [cv2.VideoCapture(str(video))] and the properties read from it. *)
Variable VideoCapture : Path -> Capture.

(** [p.stat().st_size]; [None] when [stat] raises. *)
Variable st_size : Path -> option Z.

(** [dir.glob('**/' + pat)]: every existing path strictly below [dir] whose
    last component matches [pat]. *)
Definition glob_rec (dir : Path) (pat : string) : list Path :=
  filter (fun p => below dir p && name_matches pat p) fs.

(** In[59]: the body of the loop over [DRIVES]. *)
Definition drive_videos (drive : string) : list Path :=
  let videos :=
    glob_rec (joinstr MOUNT_POINT drive) "*.mp4"
    ++ glob_rec (joinstr MOUNT_POINT drive) "*.MPG" in
  let videos := filter is_visible videos in
  let videos := filter is_not_recycled videos in
  videos.

Definition all_videos : list Path := flat_map drive_videos DRIVES.

(** In[60] *)
Definition metadata_row (video : Path) : Row :=
  let cap := VideoCapture video in
  {| file := video;
     filetype := filetype_of video;
     frames := Some (CAP_PROP_FRAME_COUNT cap);
     fps := CAP_PROP_FPS cap;
     width := CAP_PROP_FRAME_WIDTH cap;
     height := CAP_PROP_FRAME_HEIGHT cap |}.

Definition metadata_df : list Row := map metadata_row all_videos.

(** In[64]: [metadata_df] after [metadata_df.loc[outlier_rows, 'frames'] = None],
    and the rows the cell then shows, [metadata_df.loc[outlier_rows]]. *)
Definition patched_df : list Row :=
  loc_set_frames_None (outlier_rows metadata_df) metadata_df.

Definition shown_outliers : list Row :=
  loc (outlier_rows metadata_df) patched_df.

(** In[74]: the lines written to [transcode.sh]. *)
Definition transcode_sh : option (list string) := transcode_lines all_videos.

(** In[76] *)
Definition transcoded_videos : list Path :=
  glob_rec OUTPUT_DRIVE "*.mp4" ++ glob_rec OUTPUT_DRIVE "*.MPG".

(** [round(p.stat().st_size / 1e6, 1)] *)
Definition filesize_mb (size : Z) : float :=
  Py.round1 (Py.float_of_int size / 1e6)%float.

Definition verification_record (transcoded_video : Path)
  : option (list (string * value)) :=
  match original_video transcoded_video with
  | None => None
  | Some original =>
      let original_cap := VideoCapture original in
      let transcoded_cap := VideoCapture transcoded_video in
      match st_size original, st_size transcoded_video with
      | Some size, Some transcoded_size =>
          Some [ ("file", VPath original);
                 ("transcoded_file", VPath transcoded_video);
                 ("frames", VInt (CAP_PROP_FRAME_COUNT original_cap));
                 ("transcoded_frames", VInt (CAP_PROP_FRAME_COUNT transcoded_cap));
                 ("filesize_mb", VFloat (filesize_mb size));
                 ("transcoded_filesize_mb", VFloat (filesize_mb transcoded_size)) ]
      | _, _ => None
      end
  end.

End Notebook.

(** ** Readings of the specification, to compare the code with *)

(** The specification's path filter: the extension is compared without
    regard to case with an allow-list, and no component starts with [.] or
    with the quarantine prefix. *)
Definition isEligible_spec (allow : list string) (quarantine : string)
  (p : Path) : bool :=
  match last_part p with
  | None => false
  | Some name =>
      existsb (fun ext => Str.endswith (Str.lower name)
                            (String "." (Str.lower ext))) allow
  end
  && forallb (fun part => negb (Str.startswith part ".")) (parts p)
  && forallb (fun part => negb (Str.startswith part quarantine)) (parts p).


(** The invocation the specification describes for a job: create the output
    directory, then run the tool once on the job's input and output. *)
Definition job_invocation (video out : Path) : list (list string) :=
  [ ["mkdir"; "-p"; str (parent out)];
    ["ffmpeg"; "-y"; "-hwaccel"; "cuda"; "-hwaccel_output_format"; "cuda";
     "-extra_hw_frames"; "4"; "-i"; str video;
     "-c:v"; "h264_nvenc"; "-crf"; "24"; str out] ].

(** ** Example trees and captures *)

Definition drive_root : Path := joinstr MOUNT_POINT "11D9-5C57".

(** The four files of the discovery scenario, below the first drive. *)
Definition scenario_fs : list Path :=
  [ joinstr drive_root "a/video.mp4";
    joinstr drive_root "a/.hidden/video.mp4";
    joinstr drive_root "b/$RECYCLE/video.MPG";
    joinstr drive_root "c/note.txt" ].

(** A video whose extension is written in the other case. *)
Definition upper_fs : list Path := [ joinstr drive_root "a/video.MP4" ].

(** Two drives holding the same relative path. *)
Definition twin_fs : list Path :=
  [ joinstr MOUNT_POINT "11D9-5C57/x/clip.mp4";
    joinstr MOUNT_POINT "5161-4A93/x/clip.mp4" ].

(** A video in a directory whose name has a blank. *)
Definition blank_video : Path := joinstr drive_root "my folder/clip.mp4".

Definition good_capture : Capture := mkCapture 1500 25 704 480.

(** A capture with a corrupted, negative frame count. *)
Definition corrupt_capture : Capture :=
  mkCapture (-3074457345618259968) 25 704 480.

Definition zero_fps_capture : Capture := mkCapture 100 0 704 480.

Definition scenario_probe (video : Path) : Capture :=
  if Pathlib.eqb video (joinstr drive_root "a/video.mp4")
  then corrupt_capture else good_capture.




(** ** The exploratory cells *)

(** [c in s] for a character [c]. *)
Fixpoint has_char (c : ascii) (s : string) : bool :=
  match s with
  | EmptyString => false
  | String d s' => Ascii.eqb d c || has_char c s'
  end.

(** [set.add]: a set of strings is kept as a list without repetition. *)
Definition set_add (x : string) (s : list string) : list string :=
  if existsb (String.eqb x) s then s else s ++ [x].

(** [sum(sizes)] *)
Definition sum (sizes : list Z) : Z := fold_left Z.add sizes 0%Z.

Section Exploration.

Variable fs : list Path.

(** [p.is_file()] *)
Variable is_file : Path -> bool.

(** [p.stat().st_size]; [None] when [stat] raises. *)
Variable st_size : Path -> option Z.

(** In[54], In[55]: the files of a drive,
    [list(filter(lambda x: x.is_file(), (MOUNT_POINT / drive).glob('**/*')))]. *)
Definition drive_files (drive : string) : list Path :=
  filter is_file (glob_rec fs (joinstr MOUNT_POINT drive) "*").

(** [list(map(lambda x: x.stat().st_size, files))] *)
Fixpoint stat_sizes (files : list Path) : option (list Z) :=
  match files with
  | [] => Some []
  | file :: rest =>
      match st_size file, stat_sizes rest with
      | Some size, Some sizes => Some (size :: sizes)
      | _, _ => None
      end
  end.

Definition drive_size (drive : string) : option Z :=
  option_map sum (stat_sizes (drive_files drive)).

(** In[54]: [total_size] after the loop over [DRIVES]. *)
Definition total_size : option Z :=
  fold_left (fun total drive =>
               match total, drive_size drive with
               | Some t, Some size => Some (t + size)%Z
               | _, _ => None
               end)
            DRIVES (Some 0%Z).

(** In[55]: the body of the loop over the files.  A path from [glob] has a
    last component; without one there are no [fileparts]. *)
Definition add_extension (extensions : list string) (filepath : Path)
  : list string :=
  let fileparts :=
    match last_part filepath with
    | Some name => Str.split "." name
    | None => []
    end in
  if (1 <? List.length fileparts)%nat
  then set_add (last fileparts EmptyString) extensions
  else extensions.

Definition extensions : list string :=
  fold_left (fun exts drive => fold_left add_extension (drive_files drive) exts)
            DRIVES [].

End Exploration.

(** *** In[91]: the tree of folders *)

Module Treelib.

Record Node : Type := mkNode {
  tag : string;
  identifier : string;
  predecessor : option string
}.

(** A tree is the list of its nodes, in the order of their creation. *)
Definition Tree : Type := list Node.

(** [tree.contains(nid)] *)
Definition contains (tree : Tree) (nid : string) : bool :=
  existsb (fun n => String.eqb (identifier n) nid) tree.

(** [tree.create_node(tag, identifier, parent)].  [None] stands for the three
    errors of [add_node]: the identifier is taken, a second root is asked
    for, or the parent is not in the tree. *)
Definition create_node (tree : Tree) (tag identifier : string)
  (parent : option string) : option Tree :=
  if contains tree identifier then None
  else
    match parent with
    | None =>
        match tree with
        | [] => Some [mkNode tag identifier None]
        | _ :: _ => None
        end
    | Some pid =>
        if contains tree pid
        then Some (tree ++ [mkNode tag identifier (Some pid)])
        else None
    end.

End Treelib.

(** The body of the loop over [i] in In[91]. *)
Definition add_folder (parts : list string) (tree : option Treelib.Tree)
  (i : nat) : option Treelib.Tree :=
  match tree with
  | None => None
  | Some tree =>
      let uid := String.concat "/" (firstn i parts) in
      let name := nth (i - 1) parts EmptyString in
      if Treelib.contains tree uid then Some tree
      else if (1 <? i)%nat then
        let parent_uid := String.concat "/" (firstn (i - 1) parts) in
        Treelib.create_node tree name uid (Some parent_uid)
      else Treelib.create_node tree name uid (Some "/")
  end.

(** The body of the loop over the videos. *)
Definition add_video (tree : option Treelib.Tree) (video : Path)
  : option Treelib.Tree :=
  match tree, relative_to video MOUNT_POINT with
  | Some _, Some video =>
      let parts := removelast (parts video) in
      fold_left (add_folder parts) (seq 1 (List.length parts)) tree
  | _, _ => None
  end.

Definition build_tree (videos : list Path) : option Treelib.Tree :=
  fold_left add_video videos (Treelib.create_node [] "/" "/" None).

(** The folders of a video given relative to the mount point,
    [video.parts[:-1]], and the node In[91] makes for the [i]-th of them. *)
Definition folders (video : Path) : list string := removelast (parts video).

Definition folder_node (parts : list string) (i : nat) : Treelib.Node :=
  Treelib.mkNode (nth (i - 1) parts EmptyString)
    (String.concat "/" (firstn i parts))
    (Some (if (1 <? i)%nat
           then String.concat "/" (firstn (i - 1) parts)
           else "/")).

(** A tree as [treelib] keeps it: the root [/] comes first, every other node
    has its parent in the tree, and no identifier is used twice. *)
Definition well_formed (tree : Treelib.Tree) : Prop :=
  (exists rest,
      tree = Treelib.mkNode "/" "/" None :: rest
      /\ forall n, In n rest ->
                   exists pid, Treelib.predecessor n = Some pid
                               /\ Treelib.contains tree pid = true)
  /\ NoDup (map Treelib.identifier tree).

(** *** In[76]: the verification table *)

Fixpoint verification_rows (VideoCapture : Path -> Capture)
  (st_size : Path -> option Z) (transcoded : list Path)
  : option (list (list (string * value))) :=
  match transcoded with
  | [] => Some []
  | transcoded_video :: rest =>
      match verification_record VideoCapture st_size transcoded_video,
            verification_rows VideoCapture st_size rest with
      | Some row, Some rows => Some (row :: rows)
      | _, _ => None
      end
  end.

(** [metadata] at the end of In[76]. *)
Definition transcoded_metadata (fs : list Path)
  (VideoCapture : Path -> Capture) (st_size : Path -> option Z)
  : option (list (list (string * value))) :=
  verification_rows VideoCapture st_size (transcoded_videos fs).

(** A path as [glob] or [Path(..)] yields it: no component is empty, is [.]
    or holds a [/]. *)
Definition proper_name (n : string) : bool :=
  negb (String.eqb n "" || String.eqb n ".") && negb (has_char "/" n).

Definition proper (p : Path) : bool := forallb proper_name (names p).

(** A tree of files for the exploratory cells: two files on the first
    drive, a folder, a file on the output drive. *)
Definition explore_fs : list Path :=
  [ joinstr drive_root "a/video.mp4";
    joinstr drive_root "a";
    joinstr drive_root "a/README";
    joinstr OUTPUT_DRIVE "11D9-5C57/a/video.mp4" ].

Definition explore_is_file (p : Path) : bool :=
  negb (Pathlib.eqb p (joinstr drive_root "a")).

Definition explore_st_size (p : Path) : option Z :=
  if Pathlib.eqb p (joinstr drive_root "a/video.mp4") then Some 1000%Z
  else Some 10%Z.

(** * Properties *)

(** ** Strings and patterns *)

Lemma string_app_nil_r (s : string) : (s ++ "")%string = s.
Proof. induction s as [|c s IH]; simpl; [reflexivity | now rewrite IH]. Qed.

(** A pattern without wildcard matches itself only. *)
Lemma fnmatch_literal (pat : string) :
  Str.literal pat = true -> forall name, Str.fnmatch pat name = String.eqb pat name.
Proof.
  induction pat as [|c pat IH]; intros Hlit name.
  - destruct name; reflexivity.
  - simpl in Hlit. apply andb_true_iff in Hlit as [Hc Hpat].
    unfold Str.plain in Hc. apply negb_true_iff, orb_false_iff in Hc as [Hs Hq].
    simpl. rewrite Hs, Hq.
    destruct name as [|d name]; [reflexivity|].
    rewrite (IH Hpat). reflexivity.
Qed.

(** A leading star lets the rest of the pattern match any suffix. *)
Lemma fnmatch_star (pat name : string) :
  Str.fnmatch (String "*" pat) name = true
  <-> exists stem tail, name = (stem ++ tail)%string /\ Str.fnmatch pat tail = true.
Proof.
  induction name as [|c name IH].
  - simpl. rewrite orb_false_r. split.
    + intros H. exists EmptyString, EmptyString. now split.
    + intros (stem & tail & E & H).
      destruct stem; [|discriminate]. simpl in E. now subst tail.
  - change (Str.fnmatch (String "*" pat) (String c name))
      with (Str.fnmatch pat (String c name) || Str.fnmatch (String "*" pat) name).
    rewrite orb_true_iff, IH. split.
    + intros [H | (stem & tail & E & H)].
      * exists EmptyString, (String c name). now split.
      * exists (String c stem), tail. split; [simpl; now rewrite E | exact H].
    + intros (stem & tail & E & H). destruct stem as [|d stem].
      * simpl in E. subst tail. now left.
      * simpl in E. injection E as _ E. right. now exists stem, tail.
Qed.

(** [*.ext] matches exactly the names that end with [.ext]. *)
Lemma fnmatch_star_suffix (suffix name : string) :
  Str.literal suffix = true ->
  Str.fnmatch (String "*" suffix) name = true
  <-> exists stem, name = (stem ++ suffix)%string.
Proof.
  intros Hlit. rewrite fnmatch_star. split.
  - intros (stem & tail & E & H). rewrite (fnmatch_literal _ Hlit) in H.
    apply String.eqb_eq in H. subst tail. now exists stem.
  - intros [stem E]. exists stem, suffix. split; [exact E|].
    rewrite (fnmatch_literal _ Hlit). apply String.eqb_refl.
Qed.

Lemma no_part_startswith_spec (pre : string) (ps : list string) :
  no_part_startswith pre ps = true
  <-> forall part, In part ps -> Str.startswith part pre = false.
Proof.
  induction ps as [|x ps IH]; simpl.
  - split; [intros _ part [] | reflexivity].
  - destruct (Str.startswith x pre) eqn:E.
    + split; [discriminate|]. intros H. rewrite <- E. symmetry. apply H. now left.
    + rewrite IH. split.
      * intros H part [<- | Hin]; [exact E | now apply H].
      * intros H part Hin. apply H. now right.
Qed.

(** ** Paths *)

Lemma strip_prefix_app (pre rest : list string) :
  strip_prefix pre (pre ++ rest) = Some rest.
Proof.
  induction pre as [|x pre IH]; simpl; [reflexivity|].
  now rewrite String.eqb_refl.
Qed.

Lemma strip_prefix_Some (pre l rest : list string) :
  strip_prefix pre l = Some rest -> l = pre ++ rest.
Proof.
  revert l. induction pre as [|x pre IH]; intros l H; simpl in H.
  - now injection H as ->.
  - destruct l as [|y l]; [discriminate|].
    destruct (String.eqb x y) eqn:E; [|discriminate].
    apply String.eqb_eq in E. subst y. simpl. f_equal. now apply IH.
Qed.

Lemma relative_to_Some (p base rel : Path) :
  relative_to p base = Some rel ->
  root p = root base /\ root rel = false /\ names p = names base ++ names rel.
Proof.
  unfold relative_to. destruct (Bool.eqb (root p) (root base)) eqn:Er; [|discriminate].
  destruct (strip_prefix (names base) (names p)) as [rest|] eqn:Es; [|discriminate].
  intros H. injection H as <-. simpl.
  apply Bool.eqb_prop in Er. apply strip_prefix_Some in Es. tauto.
Qed.

Lemma relative_to_app (base : Path) (rest : list string) :
  relative_to (mkPath (root base) (names base ++ rest)) base
  = Some (mkPath false rest).
Proof.
  unfold relative_to. simpl. rewrite Bool.eqb_reflx, strip_prefix_app. reflexivity.
Qed.

(** Joining the base back to a relative path restores the path. *)
Lemma joinpath_relative_to (p base rel : Path) :
  relative_to p base = Some rel -> joinpath base rel = p.
Proof.
  intros H. apply relative_to_Some in H as (Hr & Hrel & Hn).
  unfold joinpath. rewrite Hrel, <- Hn, <- Hr. now destruct p.
Qed.

Lemma last_part_names (p : Path) :
  names p <> [] -> last_part p = Some (last (names p) EmptyString).
Proof.
  intros Hne. unfold last_part, parts.
  destruct (exists_last Hne) as (l & x & E). rewrite E, last_last.
  destruct (root p); simpl; rewrite ?rev_app_distr; reflexivity.
Qed.

Lemma last_app_cons {A : Type} (l l' : list A) (x d : A) :
  last (l ++ x :: l') d = last (x :: l') d.
Proof.
  induction l as [|y l IH]; [reflexivity|].
  simpl app. rewrite <- IH. simpl. destruct (l ++ x :: l') eqn:E; [|reflexivity].
  now destruct l.
Qed.

(** ** Discovery *)

Lemma glob_rec_In (fs : list Path) (dir : Path) (pat : string) (p : Path) :
  In p (glob_rec fs dir pat)
  <-> In p fs /\ below dir p = true /\ name_matches pat p = true.
Proof.
  unfold glob_rec. rewrite filter_In, andb_true_iff. reflexivity.
Qed.

Lemma drive_videos_In (fs : list Path) (drive : string) (p : Path) :
  In p (drive_videos fs drive)
  <-> In p fs
      /\ below (joinstr MOUNT_POINT drive) p = true
      /\ (name_matches "*.mp4" p = true \/ name_matches "*.MPG" p = true)
      /\ is_visible p = true
      /\ is_not_recycled p = true.
Proof.
  unfold drive_videos. rewrite !filter_In, in_app_iff, !glob_rec_In. tauto.
Qed.

Lemma all_videos_In (fs : list Path) (p : Path) :
  In p (all_videos fs)
  <-> In p fs
      /\ (exists drive, In drive DRIVES
                        /\ below (joinstr MOUNT_POINT drive) p = true)
      /\ (name_matches "*.mp4" p = true \/ name_matches "*.MPG" p = true)
      /\ is_visible p = true
      /\ is_not_recycled p = true.
Proof.
  unfold all_videos. rewrite in_flat_map. split.
  - intros (drive & Hd & H). apply drive_videos_In in H.
    destruct H as (H1 & H2 & H3 & H4 & H5). repeat split; eauto.
  - intros (H1 & (drive & Hd & H2) & H3 & H4 & H5).
    exists drive. split; [exact Hd|]. apply drive_videos_In. tauto.
Qed.

Lemma below_Some (dir p : Path) :
  below dir p = true ->
  exists x rest, relative_to p dir = Some (mkPath false (x :: rest)).
Proof.
  unfold below. destruct (relative_to p dir) as [rel|] eqn:E; [|discriminate].
  destruct (relative_to_Some _ _ _ E) as (_ & Hr & _).
  destruct rel as [r ns]. simpl in *. subst r.
  destruct ns as [|x rest]; [discriminate|]. intros _. now exists x, rest.
Qed.

(** A path below one of the drives is the mount point followed by the
    drive and at least one more component. *)
Lemma below_drive (drive : string) (p : Path) :
  In drive DRIVES ->
  below (joinstr MOUNT_POINT drive) p = true ->
  exists x rest, p = mkPath true (names MOUNT_POINT ++ drive :: x :: rest).
Proof.
  intros Hd Hb. apply below_Some in Hb as (x & rest & E).
  apply relative_to_Some in E as (Hr & _ & Hn). simpl in Hn.
  exists x, rest. destruct p as [r ns]. simpl in *.
  unfold DRIVES in Hd. simpl in Hd.
  destruct Hd as [<- | [<- | [<- | []]]]; simpl in Hr, Hn; now subst.
Qed.

Lemma all_videos_shape (fs : list Path) (video : Path) :
  In video (all_videos fs) ->
  exists drive x rest,
    In drive DRIVES
    /\ video = mkPath true (names MOUNT_POINT ++ drive :: x :: rest).
Proof.
  intros H. apply all_videos_In in H as (_ & (drive & Hd & Hb) & _).
  destruct (below_drive _ _ Hd Hb) as (x & rest & E). now exists drive, x, rest.
Qed.

(** ** Planning *)

Lemma output_filepath_app (rest : list string) :
  output_filepath (mkPath true (names MOUNT_POINT ++ rest))
  = Some (mkPath true (names OUTPUT_DRIVE ++ rest)).
Proof.
  unfold output_filepath.
  pose proof (relative_to_app MOUNT_POINT rest) as E.
  change (root MOUNT_POINT) with true in E. now rewrite E.
Qed.

Lemma output_filepath_Some (video out : Path) :
  output_filepath video = Some out ->
  exists rel,
    relative_to video MOUNT_POINT = Some rel
    /\ video = mkPath true (names MOUNT_POINT ++ names rel)
    /\ out = mkPath true (names OUTPUT_DRIVE ++ names rel).
Proof.
  unfold output_filepath.
  destruct (relative_to video MOUNT_POINT) as [rel|] eqn:E; [|discriminate].
  intros H. injection H as <-. exists rel. split; [reflexivity|].
  destruct (relative_to_Some _ _ _ E) as (Hr & Hrel & Hn).
  split.
  - destruct video as [r ns]. simpl in *. now subst.
  - unfold joinpath. now rewrite Hrel.
Qed.

Lemma original_video_app (rest : list string) :
  original_video (mkPath true (names OUTPUT_DRIVE ++ rest))
  = Some (mkPath true (names MOUNT_POINT ++ rest)).
Proof.
  unfold original_video.
  pose proof (relative_to_app OUTPUT_DRIVE rest) as E.
  change (root OUTPUT_DRIVE) with true in E. now rewrite E.
Qed.

Lemma original_video_Some (transcoded original : Path) :
  original_video transcoded = Some original ->
  exists rel,
    relative_to transcoded OUTPUT_DRIVE = Some rel
    /\ transcoded = mkPath true (names OUTPUT_DRIVE ++ names rel)
    /\ original = mkPath true (names MOUNT_POINT ++ names rel).
Proof.
  unfold original_video.
  destruct (relative_to transcoded OUTPUT_DRIVE) as [rel|] eqn:E; [|discriminate].
  intros H. injection H as <-. exists rel. split; [reflexivity|].
  destruct (relative_to_Some _ _ _ E) as (Hr & Hrel & Hn).
  split.
  - destruct transcoded as [r ns]. simpl in *. now subst.
  - unfold joinpath. now rewrite Hrel.
Qed.

(** The verifier's reconstruction undoes the planner's mapping. *)
Lemma original_of_output (video out : Path) :
  output_filepath video = Some out -> original_video out = Some video.
Proof.
  intros H. apply output_filepath_Some in H as (rel & _ & -> & ->).
  apply original_video_app.
Qed.

Lemma output_of_original (transcoded original : Path) :
  original_video transcoded = Some original ->
  output_filepath original = Some transcoded.
Proof.
  intros H. apply original_video_Some in H as (rel & _ & -> & ->).
  apply output_filepath_app.
Qed.

Lemma cmd_Some (video out : Path) :
  output_filepath video = Some out ->
  cmd video = Some (format_cmd (str (parent out)) (str video) (str out)).
Proof. unfold cmd. now intros ->. Qed.

Lemma transcode_lines_Some (videos : list Path) :
  (forall video, In video videos -> output_filepath video <> None) ->
  exists lines,
    transcode_lines videos = Some lines
    /\ List.length lines = List.length videos
    /\ forall video line, In video videos -> cmd video = Some line -> In line lines.
Proof.
  induction videos as [|v videos IH]; intros Hall.
  - exists []. repeat split. intros video line [].
  - destruct IH as (lines & E & Hlen & Hin).
    { intros video Hv. apply Hall. now right. }
    destruct (output_filepath v) as [out|] eqn:Eo.
    2:{ exfalso. apply (Hall v); [now left | exact Eo]. }
    exists (format_cmd (str (parent out)) (str v) (str out) :: lines).
    simpl. rewrite (cmd_Some _ _ Eo), E. repeat split.
    + simpl. now rewrite Hlen.
    + intros video line [<- | Hv] Hc.
      * rewrite (cmd_Some _ _ Eo) in Hc. injection Hc as <-. now left.
      * right. eapply Hin; eauto.
Qed.

Lemma transcode_lines_map (videos : list Path) (lines : list string) :
  transcode_lines videos = Some lines -> map cmd videos = map Some lines.
Proof.
  revert lines. induction videos as [|v videos IH]; intros lines H.
  - injection H as <-. reflexivity.
  - simpl in H. destruct (cmd v) as [line|] eqn:Ev; [|discriminate].
    destruct (transcode_lines videos) as [lines'|]; [|discriminate].
    injection H as <-. simpl. rewrite Ev. f_equal. now apply IH.
Qed.

Lemma all_videos_planned (fs : list Path) (video : Path) :
  In video (all_videos fs) -> output_filepath video <> None.
Proof.
  intros H. apply all_videos_shape in H as (drive & x & rest & _ & ->).
  now rewrite output_filepath_app.
Qed.

Lemma name_matches_suffix (suffix : string) (p : Path) :
  Str.literal suffix = true ->
  name_matches (String "*" suffix) p = true
  <-> exists stem, last_part p = Some (stem ++ suffix)%string.
Proof.
  intros Hlit. unfold name_matches. destruct (last_part p) as [name|].
  - rewrite (fnmatch_star_suffix _ _ Hlit). split.
    + intros [stem ->]. now exists stem.
    + intros [stem E]. injection E as ->. now exists stem.
  - split; [discriminate | intros [stem E]; discriminate].
Qed.

(** C10: the verifier's reconstruction of the original path and the
    planner's mapping to the output path are inverse to each other.  For a
    video under the mount point, the planned output path made relative to the
    output drive is the video's own relative path, and joining it to the
    mount point gives the video back; conversely the original reconstructed
    from a transcoded path is planned onto that same transcoded path. *)
Theorem plan_verify_inverse :
  (forall video rel : Path,
      relative_to video MOUNT_POINT = Some rel ->
      exists out,
        output_filepath video = Some out
        /\ relative_to out OUTPUT_DRIVE = Some rel
        /\ joinpath MOUNT_POINT rel = video
        /\ original_video out = Some video)
  /\ (forall transcoded original : Path,
         original_video transcoded = Some original ->
         output_filepath original = Some transcoded).
Proof.
  split.
  - intros video rel E.
    assert (Ho : output_filepath video = Some (joinpath OUTPUT_DRIVE rel))
      by (unfold output_filepath; now rewrite E).
    exists (joinpath OUTPUT_DRIVE rel). split; [exact Ho|].
    split; [|split].
    + destruct (relative_to_Some _ _ _ E) as (_ & Hrel & _).
      destruct rel as [r ns]. simpl in Hrel. subst r.
      pose proof (relative_to_app OUTPUT_DRIVE ns) as Ha. exact Ha.
    + now apply joinpath_relative_to.
    + now apply original_of_output.
  - apply output_of_original.
Qed.

Lemma plan_verify_inverse_witness :
  relative_to (joinstr drive_root "a/video.mp4") MOUNT_POINT
  = Some (parse "11D9-5C57/a/video.mp4")
  /\ exists out,
      output_filepath (joinstr drive_root "a/video.mp4") = Some out
      /\ relative_to out OUTPUT_DRIVE = Some (parse "11D9-5C57/a/video.mp4")
      /\ joinpath MOUNT_POINT (parse "11D9-5C57/a/video.mp4")
         = joinstr drive_root "a/video.mp4"
      /\ original_video out = Some (joinstr drive_root "a/video.mp4").
Proof.
  split; [reflexivity|].
  apply (proj1 plan_verify_inverse). reflexivity.
Defined.

(** C6 (as the code has it): the roots that are scanned are the drives
    under the mount point, and the planned output path of a record is not the
    output drive joined with the record's path relative to its drive: the
    relative path is taken from the mount point, so the name of the drive
    comes in between.  Below that, the directories, the file name and the
    extension are those of the input. *)
Theorem output_path_keeps_drive
  (fs : list Path) (VideoCapture : Path -> Capture) (r : Row) :
  In r (metadata_df fs VideoCapture) ->
  exists drive rel out,
    In drive DRIVES
    /\ relative_to (file r) (joinstr MOUNT_POINT drive) = Some rel
    /\ relative_to (file r) MOUNT_POINT = Some (joinpath (parse drive) rel)
    /\ output_filepath (file r) = Some out
    /\ out = joinpath (joinstr OUTPUT_DRIVE drive) rel
    /\ out <> joinpath OUTPUT_DRIVE rel
    /\ parts (file r) = parts MOUNT_POINT ++ drive :: parts rel
    /\ parts out = parts OUTPUT_DRIVE ++ drive :: parts rel
    /\ last_part out = last_part (file r)
    /\ filetype_of out = filetype r.
Proof.
  unfold metadata_df. rewrite in_map_iff. intros (video & <- & Hin). simpl.
  apply all_videos_shape in Hin as (drive & x & rest & Hd & ->).
  exists drive, (mkPath false (x :: rest)),
         (mkPath true (names OUTPUT_DRIVE ++ drive :: x :: rest)).
  assert (Hlast :
            last_part (mkPath true (names OUTPUT_DRIVE ++ drive :: x :: rest))
            = last_part (mkPath true (names MOUNT_POINT ++ drive :: x :: rest))).
  { rewrite !last_part_names by (simpl; discriminate). reflexivity. }
  assert (Hp : parse drive = mkPath false [drive]).
  { unfold DRIVES in Hd. simpl in Hd.
    destruct Hd as [<- | [<- | [<- | []]]]; reflexivity. }
  split; [exact Hd|].
  split.
  { unfold joinstr. rewrite Hp.
    exact (relative_to_app (mkPath true (names MOUNT_POINT ++ [drive]))
             (x :: rest)). }
  split.
  { rewrite Hp. exact (relative_to_app MOUNT_POINT (drive :: x :: rest)). }
  split; [apply output_filepath_app|].
  split; [unfold joinstr; now rewrite Hp|].
  split.
  { intros E. apply (f_equal (fun p => List.length (names p))) in E.
    simpl in E. lia. }
  split; [reflexivity|]. split; [reflexivity|].
  split; [exact Hlast|].
  unfold filetype_of. now rewrite Hlast.
Qed.

Lemma output_path_keeps_drive_witness :
  In (metadata_row scenario_probe (joinstr drive_root "a/video.mp4"))
     (metadata_df scenario_fs scenario_probe)
  /\ exists drive rel out,
      In drive DRIVES
      /\ relative_to (joinstr drive_root "a/video.mp4") (joinstr MOUNT_POINT drive)
         = Some rel
      /\ relative_to (joinstr drive_root "a/video.mp4") MOUNT_POINT
         = Some (joinpath (parse drive) rel)
      /\ output_filepath (joinstr drive_root "a/video.mp4") = Some out
      /\ out = joinpath (joinstr OUTPUT_DRIVE drive) rel
      /\ out <> joinpath OUTPUT_DRIVE rel
      /\ parts (joinstr drive_root "a/video.mp4")
         = parts MOUNT_POINT ++ drive :: parts rel
      /\ parts out = parts OUTPUT_DRIVE ++ drive :: parts rel
      /\ last_part out = last_part (joinstr drive_root "a/video.mp4")
      /\ filetype_of out = "mp4".
Proof.
  split; [left; reflexivity|].
  apply (output_path_keeps_drive scenario_fs scenario_probe
           (metadata_row scenario_probe (joinstr drive_root "a/video.mp4"))).
  left. reflexivity.
Defined.

(** C6, the claim as stated: the record of [a/video.mp4] on the first drive.
    Its path relative to the root it was found under is [a/video.mp4]; the
    planned output path is not the output drive joined with it, it has the
    drive's name in between. *)
Lemma drive_name_is_inserted :
  map file (metadata_df scenario_fs scenario_probe)
  = [joinstr drive_root "a/video.mp4"]
  /\ drive_root = joinstr MOUNT_POINT "11D9-5C57"
  /\ relative_to (joinstr drive_root "a/video.mp4") drive_root
     = Some (parse "a/video.mp4")
  /\ joinpath OUTPUT_DRIVE (parse "a/video.mp4")
     = parse "/media/andre/maternal/a/video.mp4"
  /\ output_filepath (joinstr drive_root "a/video.mp4")
     = Some (parse "/media/andre/maternal/11D9-5C57/a/video.mp4")
  /\ output_filepath (joinstr drive_root "a/video.mp4")
     <> Some (joinpath OUTPUT_DRIVE (parse "a/video.mp4")).
Proof.
  split; [vm_compute; reflexivity|].
  split; [reflexivity|].
  split; [vm_compute; reflexivity|].
  split; [vm_compute; reflexivity|].
  split; [vm_compute; reflexivity|].
  vm_compute. discriminate.
Qed.

(** C3 (as the code has it): planning has no collision check and never
    fails on discovered videos.  The relative path is taken from the mount
    point, so it keeps the name of the drive: two videos planned onto the same
    output path are the same video, and every discovered video gets its line
    in [transcode.sh]. *)
Theorem planning_injective_and_total :
  (forall v1 v2 out : Path,
      output_filepath v1 = Some out -> output_filepath v2 = Some out -> v1 = v2)
  /\ (forall fs : list Path,
         exists lines,
           transcode_sh fs = Some lines
           /\ List.length lines = List.length (all_videos fs)).
Proof.
  split.
  - intros v1 v2 out H1 H2.
    apply original_of_output in H1. apply original_of_output in H2.
    rewrite H1 in H2. now injection H2.
  - intros fs. unfold transcode_sh.
    destruct (transcode_lines_Some (all_videos fs) (all_videos_planned fs))
      as (lines & E & Hlen & _).
    now exists lines.
Qed.

Lemma planning_injective_and_total_witness :
  output_filepath (joinstr MOUNT_POINT "11D9-5C57/x/clip.mp4")
  = Some (joinstr OUTPUT_DRIVE "11D9-5C57/x/clip.mp4")
  /\ joinstr MOUNT_POINT "11D9-5C57/x/clip.mp4"
     = mkPath true ["media"; "andre"; "11D9-5C57"; "x"; "clip.mp4"].
Proof.
  split; [reflexivity|].
  apply (proj1 planning_injective_and_total _ _
           (joinstr OUTPUT_DRIVE "11D9-5C57/x/clip.mp4"));
    reflexivity.
Defined.

(** C3, the scenario as the specification states it: two drives hold
    [x/clip.mp4]; planning does not fail and writes two lines, one per video,
    onto two different output paths. *)
Lemma twin_roots_are_both_planned :
  all_videos twin_fs = twin_fs
  /\ map output_filepath twin_fs
     = [ Some (joinstr OUTPUT_DRIVE "11D9-5C57/x/clip.mp4");
         Some (joinstr OUTPUT_DRIVE "5161-4A93/x/clip.mp4") ]
  /\ transcode_sh twin_fs <> None
  /\ option_map (@List.length string) (transcode_sh twin_fs) = Some 2%nat.
Proof.
  split; [reflexivity|]. split; [reflexivity|].
  split; [vm_compute; discriminate | reflexivity].
Qed.

(** C4 (as the code has it): a path is among the discovered videos exactly
    when it exists below one of the drives, its name ends with [.mp4] or
    [.MPG] written in that very case, and no component of it starts with [.]
    or with [$RECYCLE].  In the scenario of four files only [a/video.mp4] is
    kept. *)
Theorem discovered_iff :
  (forall (fs : list Path) (p : Path),
      In p (all_videos fs)
      <-> In p fs
          /\ (exists drive, In drive DRIVES
                            /\ below (joinstr MOUNT_POINT drive) p = true)
          /\ (exists stem, last_part p = Some (stem ++ ".mp4")%string
                           \/ last_part p = Some (stem ++ ".MPG")%string)
          /\ (forall part, In part (parts p) -> Str.startswith part "." = false)
          /\ (forall part, In part (parts p)
                           -> Str.startswith part "$RECYCLE" = false))
  /\ all_videos scenario_fs = [joinstr drive_root "a/video.mp4"].
Proof.
  split; [|reflexivity].
  intros fs p. rewrite all_videos_In.
  unfold is_visible, is_not_recycled. rewrite !no_part_startswith_spec.
  rewrite (name_matches_suffix ".mp4" p eq_refl).
  rewrite (name_matches_suffix ".MPG" p eq_refl).
  split.
  - intros (H1 & H2 & H3 & H4 & H5). repeat split; try assumption.
    destruct H3 as [[stem E] | [stem E]]; exists stem; [now left | now right].
  - intros (H1 & H2 & (stem & H3) & H4 & H5). repeat split; try assumption.
    destruct H3 as [E | E]; [left | right]; now exists stem.
Qed.

Lemma discovered_iff_witness :
  In (joinstr drive_root "a/video.mp4") (all_videos scenario_fs)
  /\ exists stem,
      last_part (joinstr drive_root "a/video.mp4") = Some (stem ++ ".mp4")%string
      \/ last_part (joinstr drive_root "a/video.mp4") = Some (stem ++ ".MPG")%string.
Proof.
  assert (H : In (joinstr drive_root "a/video.mp4") (all_videos scenario_fs))
    by (left; reflexivity).
  split; [exact H|].
  apply (proj1 (proj1 discovered_iff scenario_fs _)) in H.
  exact (proj1 (proj2 (proj2 H))).
Defined.

(** C4, the claim as stated: [a/video.MP4] has an allowed extension up to
    case, and no hidden or recycled component, yet it is not discovered. *)
Lemma upper_case_extension_not_discovered :
  In (joinstr drive_root "a/video.MP4") upper_fs
  /\ below drive_root (joinstr drive_root "a/video.MP4") = true
  /\ isEligible_spec ["mp4"; "MPG"] "$RECYCLE" (joinstr drive_root "a/video.MP4")
     = true
  /\ ~ In (joinstr drive_root "a/video.MP4") (all_videos upper_fs).
Proof.
  split; [left; reflexivity|]. split; [reflexivity|]. split; [reflexivity|].
  intros H. exact H.
Qed.

(** ** The metadata table *)





(** *** Sums of binary64 numbers *)













Lemma loc_set_frames_None_outliers (df : list Row) :
  loc_set_frames_None (outlier_rows df) df
  = map (fun r => if frames_negative r then set_frames r None else r) df.
Proof.
  unfold loc_set_frames_None, outlier_rows.
  induction df as [|r df IH]; [reflexivity|]. simpl. now rewrite IH.
Qed.

Lemma loc_outliers (f : Row -> Row) (df : list Row) :
  loc (outlier_rows df) (map f df) = map f (filter frames_negative df).
Proof.
  unfold loc, outlier_rows.
  induction df as [|r df IH]; [reflexivity|]. simpl.
  destruct (frames_negative r); simpl; now rewrite IH.
Qed.

Lemma patched_df_map (fs : list Path) (VideoCapture : Path -> Capture) :
  patched_df fs VideoCapture
  = map (fun r => if frames_negative r then set_frames r None else r)
        (metadata_df fs VideoCapture).
Proof. apply loc_set_frames_None_outliers. Qed.

Lemma shown_outliers_map (fs : list Path) (VideoCapture : Path -> Capture) :
  shown_outliers fs VideoCapture
  = map (fun r => if frames_negative r then set_frames r None else r)
        (filter frames_negative (metadata_df fs VideoCapture)).
Proof. unfold shown_outliers. rewrite patched_df_map. apply loc_outliers. Qed.

Lemma frames_negative_row (VideoCapture : Path -> Capture) (video : Path) :
  frames_negative (metadata_row VideoCapture video)
  = (CAP_PROP_FRAME_COUNT (VideoCapture video) <? 0)%Z.
Proof. reflexivity. Qed.

(** Every row of the patched table comes from a discovered video. *)
Lemma patched_df_In (fs : list Path) (VideoCapture : Path -> Capture) (r : Row) :
  In r (patched_df fs VideoCapture)
  <-> exists video,
      In video (all_videos fs)
      /\ r = if (CAP_PROP_FRAME_COUNT (VideoCapture video) <? 0)%Z
             then set_frames (metadata_row VideoCapture video) None
             else metadata_row VideoCapture video.
Proof.
  rewrite patched_df_map. unfold metadata_df. rewrite map_map, in_map_iff.
  split; intros (video & H1 & H2); exists video.
  - rewrite frames_negative_row in H1. now split.
  - rewrite frames_negative_row. now split.
Qed.

Lemma shown_outliers_In (fs : list Path) (VideoCapture : Path -> Capture) (r : Row) :
  In r (shown_outliers fs VideoCapture)
  <-> exists video,
      In video (all_videos fs)
      /\ (CAP_PROP_FRAME_COUNT (VideoCapture video) < 0)%Z
      /\ r = set_frames (metadata_row VideoCapture video) None.
Proof.
  rewrite shown_outliers_map, in_map_iff. split.
  - intros (r0 & <- & Hin). apply filter_In in Hin as [Hin Hneg].
    unfold metadata_df in Hin. apply in_map_iff in Hin as (video & <- & Hv).
    exists video. rewrite Hneg. rewrite frames_negative_row in Hneg.
    apply Z.ltb_lt in Hneg. now repeat split.
  - intros (video & Hv & Hneg & ->). exists (metadata_row VideoCapture video).
    apply Z.ltb_lt in Hneg. rewrite frames_negative_row, Hneg. split; [reflexivity|].
    apply filter_In. split.
    + unfold metadata_df. now apply in_map.
    + now rewrite frames_negative_row.
Qed.


(** The rows In[64] shows are the patched rows of the videos with a negative
    frame count, in the order of discovery. *)
Lemma shown_outliers_videos (fs : list Path) (VideoCapture : Path -> Capture) :
  shown_outliers fs VideoCapture
  = map (fun video => set_frames (metadata_row VideoCapture video) None)
        (filter (fun video => (CAP_PROP_FRAME_COUNT (VideoCapture video) <? 0)%Z)
                (all_videos fs)).
Proof.
  rewrite shown_outliers_map. unfold metadata_df.
  induction (all_videos fs) as [|video videos IH]; [reflexivity|].
  cbn [map filter]. rewrite frames_negative_row.
  destruct (CAP_PROP_FRAME_COUNT (VideoCapture video) <? 0)%Z eqn:E.
  - cbn [map]. rewrite frames_negative_row, E. now f_equal.
  - exact IH.
Qed.





(** C2 (as the code has it): a discovered video whose probed frame count is
    negative has the raw count in the table that In[61] sums; In[64] replaces
    it by [None] in the one row of the video and leaves the other columns as
    probed; what In[64] shows is that row for each such video and nothing
    else, and no reason is stored anywhere; [transcode.sh] has the command of
    the video; and In[76] reads the raw count again into the record of its
    output. *)
Theorem negative_frame_count_patched_and_shown
  (fs : list Path) (VideoCapture : Path -> Capture)
  (st_size : Path -> option Z) (video : Path) :
  In video (all_videos fs) ->
  (CAP_PROP_FRAME_COUNT (VideoCapture video) < 0)%Z ->
  In (metadata_row VideoCapture video) (metadata_df fs VideoCapture)
  /\ frames (metadata_row VideoCapture video)
     = Some (CAP_PROP_FRAME_COUNT (VideoCapture video))
  /\ In (set_frames (metadata_row VideoCapture video) None)
        (patched_df fs VideoCapture)
  /\ (forall r, In r (patched_df fs VideoCapture) ->
                file r = video ->
                r = {| file := video;
                       filetype := filetype_of video;
                       frames := None;
                       fps := CAP_PROP_FPS (VideoCapture video);
                       width := CAP_PROP_FRAME_WIDTH (VideoCapture video);
                       height := CAP_PROP_FRAME_HEIGHT (VideoCapture video) |})
  /\ shown_outliers fs VideoCapture
     = map (fun v => set_frames (metadata_row VideoCapture v) None)
           (filter (fun v => (CAP_PROP_FRAME_COUNT (VideoCapture v) <? 0)%Z)
                   (all_videos fs))
  /\ exists out lines,
      output_filepath video = Some out
      /\ transcode_sh fs = Some lines
      /\ map Some lines = map cmd (all_videos fs)
      /\ In ("mkdir -p " ++ str (parent out) ++ " &&"
              ++ "ffmpeg -y -hwaccel cuda -hwaccel_output_format cuda -extra_hw_frames 4 -i '"
              ++ str video ++ "' "
              ++ "-c:v h264_nvenc -crf 24 '" ++ str out ++ "'"
              ++ String Sh.newline EmptyString)%string lines
      /\ forall size transcoded_size,
          st_size video = Some size ->
          st_size out = Some transcoded_size ->
          exists record,
            verification_record VideoCapture st_size out = Some record
            /\ dict_get "frames" record
               = Some (VInt (CAP_PROP_FRAME_COUNT (VideoCapture video))).
Proof.
  intros Hin Hneg. pose proof Hneg as Hlt. apply Z.ltb_lt in Hlt.
  split; [unfold metadata_df; now apply in_map|].
  split; [reflexivity|].
  split; [apply patched_df_In; exists video; now rewrite Hlt|].
  split.
  { intros r Hr Hfile. apply patched_df_In in Hr as (v & Hv & ->).
    assert (v = video) as ->
        by (destruct (CAP_PROP_FRAME_COUNT (VideoCapture v) <? 0)%Z; exact Hfile).
    now rewrite Hlt. }
  split; [apply shown_outliers_videos|].
  destruct (transcode_lines_Some (all_videos fs) (all_videos_planned fs))
    as (lines & E & _ & Hlines).
  destruct (output_filepath video) as [out|] eqn:Eo.
  2:{ exfalso. now apply (all_videos_planned fs video). }
  exists out, lines.
  split; [reflexivity|]. split; [exact E|].
  split; [symmetry; now apply transcode_lines_map|].
  split.
  { exact (Hlines video _ Hin (cmd_Some _ _ Eo)). }
  intros size transcoded_size Hs Ht. unfold verification_record.
  rewrite (original_of_output _ _ Eo), Hs, Ht. eexists. split; reflexivity.
Qed.

Lemma negative_frame_count_patched_and_shown_witness :
  CAP_PROP_FRAME_COUNT (scenario_probe (joinstr drive_root "a/video.mp4"))
  = (-3074457345618259968)%Z
  /\ shown_outliers scenario_fs scenario_probe
     = [ {| file := joinstr drive_root "a/video.mp4";
            filetype := "mp4";
            frames := None;
            fps := 25;
            width := 704;
            height := 480 |} ]
  /\ patched_df scenario_fs scenario_probe
     = shown_outliers scenario_fs scenario_probe.
Proof.
  split; [reflexivity|].
  assert (H : In (joinstr drive_root "a/video.mp4") (all_videos scenario_fs))
    by (left; reflexivity).
  assert (Hneg : (CAP_PROP_FRAME_COUNT
                    (scenario_probe (joinstr drive_root "a/video.mp4")) < 0)%Z)
    by reflexivity.
  pose proof (negative_frame_count_patched_and_shown
                scenario_fs scenario_probe (fun _ => Some 1000000%Z)
                (joinstr drive_root "a/video.mp4") H Hneg)
    as (_ & _ & _ & _ & Hshown & _).
  split; [exact Hshown|]. rewrite Hshown. reflexivity.
Defined.

(** C2, the claim as stated: the raw negative frame count is used as it is.
    In[61] sums the table before In[64] touches it, so the total of the
    scenario is the negative count divided by the frame rate; and In[76]
    stores the same raw count in the record of the transcoded file. *)
Lemma raw_negative_frame_count_is_used :
  all_videos scenario_fs = [joinstr drive_root "a/video.mp4"]
  /\ map frames (metadata_df scenario_fs scenario_probe)
     = [Some (-3074457345618259968)%Z]
  /\ total_seconds_cell (metadata_df scenario_fs scenario_probe)
     = Some (-0x1.b4e81b4e81b52p+56)%float
  /\ output_filepath (joinstr drive_root "a/video.mp4")
     = Some (joinstr OUTPUT_DRIVE "11D9-5C57/a/video.mp4")
  /\ option_map (dict_get "frames")
       (verification_record scenario_probe (fun _ => Some 1000000%Z)
          (joinstr OUTPUT_DRIVE "11D9-5C57/a/video.mp4"))
     = Some (Some (VInt (-3074457345618259968))).
Proof.
  split; [vm_compute; reflexivity|].
  split; [vm_compute; reflexivity|].
  split; [vm_compute; reflexivity|].
  split; vm_compute; reflexivity.
Qed.

(** C5 (as the code has it): the frame rate of a record is the probed one,
    whatever its sign; nothing is recorded about it, since a record is among
    the selected outliers exactly when its probed frame count is negative. *)
Theorem fps_kept_as_probed
  (fs : list Path) (VideoCapture : Path -> Capture) (r : Row) :
  In r (patched_df fs VideoCapture) ->
  fps r = CAP_PROP_FPS (VideoCapture (file r))
  /\ (In r (shown_outliers fs VideoCapture)
      <-> (CAP_PROP_FRAME_COUNT (VideoCapture (file r)) < 0)%Z).
Proof.
  intros Hr. apply patched_df_In in Hr as (video & Hv & ->).
  destruct (CAP_PROP_FRAME_COUNT (VideoCapture video) <? 0)%Z eqn:E; simpl.
  - split; [reflexivity|]. apply Z.ltb_lt in E. split; [now intros _|].
    intros _. apply shown_outliers_In. now exists video.
  - split; [reflexivity|]. apply Z.ltb_ge in E. split; [|lia].
    intros H. apply shown_outliers_In in H as (v & _ & _ & H). discriminate.
Qed.

Lemma fps_kept_as_probed_witness :
  In (metadata_row (fun _ => zero_fps_capture) (joinstr drive_root "a/video.mp4"))
     (patched_df scenario_fs (fun _ => zero_fps_capture))
  /\ fps (metadata_row (fun _ => zero_fps_capture) (joinstr drive_root "a/video.mp4"))
     = 0%float.
Proof.
  assert (H : In (metadata_row (fun _ => zero_fps_capture)
                    (joinstr drive_root "a/video.mp4"))
                 (patched_df scenario_fs (fun _ => zero_fps_capture)))
    by (left; reflexivity).
  split; [exact H|].
  exact (proj1 (fps_kept_as_probed scenario_fs (fun _ => zero_fps_capture) _ H)).
Defined.

(** C5, the claim as stated: a video probed with a frame rate of zero gets
    a record whose frame rate is that zero, not NaN; it is not among the
    selected outliers; and the duration aggregate divides by it. *)
Lemma zero_fps_is_kept_and_divided_by :
  (CAP_PROP_FPS zero_fps_capture <=? 0)%float = true
  /\ map fps (patched_df scenario_fs (fun _ => zero_fps_capture)) = [0%float]
  /\ map (fun r => is_nan (fps r))
         (patched_df scenario_fs (fun _ => zero_fps_capture)) = [false]
  /\ shown_outliers scenario_fs (fun _ => zero_fps_capture) = []
  /\ total_seconds (patched_df scenario_fs (fun _ => zero_fps_capture)) = infinity.
Proof. repeat split. Qed.

(** ** Verification *)

(** C7 (as the code has it): the record of a transcoded video holds the two
    paths, the two frame counts and the two sizes in megabytes, and nothing
    else: it has no [consistent] entry and no [deltas] entry, and the capture
    is read for its frame count only, so widths and heights play no part.
    When the transcoded file has the capture and the size of the original,
    the two frame counts are equal and so are the two sizes. *)
Theorem verification_record_entries
  (VideoCapture : Path -> Capture) (st_size : Path -> option Z)
  (transcoded original : Path) (size transcoded_size : Z) :
  original_video transcoded = Some original ->
  st_size original = Some size ->
  st_size transcoded = Some transcoded_size ->
  exists record,
    verification_record VideoCapture st_size transcoded = Some record
    /\ map fst record
       = ["file"; "transcoded_file"; "frames"; "transcoded_frames";
          "filesize_mb"; "transcoded_filesize_mb"]
    /\ dict_get "file" record = Some (VPath original)
    /\ dict_get "transcoded_file" record = Some (VPath transcoded)
    /\ dict_get "frames" record
       = Some (VInt (CAP_PROP_FRAME_COUNT (VideoCapture original)))
    /\ dict_get "transcoded_frames" record
       = Some (VInt (CAP_PROP_FRAME_COUNT (VideoCapture transcoded)))
    /\ dict_get "filesize_mb" record = Some (VFloat (filesize_mb size))
    /\ dict_get "transcoded_filesize_mb" record
       = Some (VFloat (filesize_mb transcoded_size))
    /\ dict_get "consistent" record = None
    /\ dict_get "deltas" record = None
    /\ (forall VideoCapture' : Path -> Capture,
           (forall p, CAP_PROP_FRAME_COUNT (VideoCapture' p)
                      = CAP_PROP_FRAME_COUNT (VideoCapture p)) ->
           verification_record VideoCapture' st_size transcoded = Some record)
    /\ (VideoCapture transcoded = VideoCapture original ->
        transcoded_size = size ->
        dict_get "transcoded_frames" record = dict_get "frames" record
        /\ dict_get "transcoded_filesize_mb" record
           = dict_get "filesize_mb" record).
Proof.
  intros Ho Hs Ht. unfold verification_record. rewrite Ho, Hs, Ht.
  eexists. split; [reflexivity|]. simpl.
  do 9 (split; [reflexivity|]). split.
  - intros VideoCapture' H. now rewrite !H.
  - intros Hc Hz. now rewrite Hc, Hz.
Qed.

Lemma verification_record_entries_witness :
  original_video (joinstr OUTPUT_DRIVE "11D9-5C57/x/clip.mp4")
  = Some (joinstr MOUNT_POINT "11D9-5C57/x/clip.mp4")
  /\ exists record,
      verification_record (fun _ => good_capture) (fun _ => Some 123456789%Z)
        (joinstr OUTPUT_DRIVE "11D9-5C57/x/clip.mp4") = Some record
      /\ dict_get "frames" record = Some (VInt 1500)
      /\ dict_get "filesize_mb" record = Some (VFloat 123.5).
Proof.
  split; [reflexivity|].
  destruct (verification_record_entries
              (fun _ => good_capture) (fun _ => Some 123456789%Z)
              (joinstr OUTPUT_DRIVE "11D9-5C57/x/clip.mp4")
              (joinstr MOUNT_POINT "11D9-5C57/x/clip.mp4")
              123456789 123456789 eq_refl eq_refl eq_refl)
    as (record & E & _ & _ & _ & Hf & _ & Hmb & _).
  exists record. split; [exact E|]. split; [exact Hf | exact Hmb].
Defined.

(** C7, the claim as stated: for a transcoded file with the capture and the
    size of its original, the record that is built has no [consistent] entry
    and no [deltas] entry. *)
Lemma identity_transcode_has_no_verdict :
  option_map (fun record => (dict_get "consistent" record, dict_get "deltas" record))
    (verification_record (fun _ => good_capture) (fun _ => Some 123456789%Z)
       (joinstr OUTPUT_DRIVE "11D9-5C57/x/clip.mp4"))
  = Some (None, None).
Proof. reflexivity. Qed.

(** ** The generated script *)

Lemma string_app_assoc (a b c : string) :
  ((a ++ b) ++ c)%string = (a ++ b ++ c)%string.
Proof. induction a as [|x a IH]; simpl; [reflexivity | now rewrite IH]. Qed.










(** The planned paths of a discovered video lie below the output drive, and
    below none of the drives that are read. *)
Lemma planned_paths_below_output_drive (fs : list Path) (video out : Path) :
  In video (all_videos fs) ->
  output_filepath video = Some out ->
  below OUTPUT_DRIVE out = true
  /\ below OUTPUT_DRIVE (parent out) = true
  /\ forall drive, In drive DRIVES ->
                   below (joinstr MOUNT_POINT drive) out = false
                   /\ below (joinstr MOUNT_POINT drive) (parent out) = false.
Proof.
  intros Hin Ho. apply all_videos_shape in Hin as (d & x & rest & Hd & ->).
  rewrite output_filepath_app in Ho. injection Ho as <-.
  split; [reflexivity|]. split.
  - unfold parent. simpl. now destruct rest.
  - intros drive Hdrive. unfold DRIVES in Hdrive. simpl in Hdrive.
    destruct Hdrive as [<- | [<- | [<- | []]]]; split; reflexivity.
Qed.


(** C8 at a video in a directory named [my folder]: the line is generated,
    but the directory is written without quotes, so the shell hands [mkdir]
    two operands, neither of which is the output directory; the invocation is
    not the one of the job. *)
Theorem mkdir_operand_is_split_at_blanks :
  exists out line,
    all_videos [blank_video] = [blank_video]
    /\ transcode_sh [blank_video] = Some [line]
    /\ output_filepath blank_video = Some out
    /\ cmd blank_video = Some line
    /\ str (parent out) = "/media/andre/maternal/11D9-5C57/my folder"
    /\ Sh.commands line
       = Some [ ["mkdir"; "-p"; "/media/andre/maternal/11D9-5C57/my"; "folder"];
                ["ffmpeg"; "-y"; "-hwaccel"; "cuda"; "-hwaccel_output_format";
                 "cuda"; "-extra_hw_frames"; "4"; "-i";
                 "/media/andre/11D9-5C57/my folder/clip.mp4";
                 "-c:v"; "h264_nvenc"; "-crf"; "24";
                 "/media/andre/maternal/11D9-5C57/my folder/clip.mp4"] ]
    /\ Sh.commands line <> Some (job_invocation blank_video out).
Proof.
  eexists. eexists. do 6 (split; [reflexivity|]).
  vm_compute. discriminate.
Qed.

(** C9 at the same video: the operands of [mkdir] are among the paths the
    line creates, and the second one, [folder], is a relative path, created
    where the script runs and not below the output drive. *)
Theorem stray_directory_outside_output_drive :
  exists line,
    In blank_video (all_videos [blank_video])
    /\ transcode_sh [blank_video] = Some [line]
    /\ option_map (flat_map Sh.write_targets) (Sh.commands line)
       = Some [ "/media/andre/maternal/11D9-5C57/my"; "folder";
                "/media/andre/maternal/11D9-5C57/my folder/clip.mp4" ]
    /\ below OUTPUT_DRIVE (parse "folder") = false
    /\ root (parse "folder") = false.
Proof.
  eexists. split; [now left|]. do 2 (split; [reflexivity|]). split; reflexivity.
Qed.

(** * Further properties of the notebook *)

(** ** Splitting a name at its dots *)

Lemma split_nonempty (sep : ascii) (s : string) : Str.split sep s <> [].
Proof.
  destruct s as [|c s]; simpl; [discriminate|].
  destruct (Ascii.eqb c sep); [discriminate|].
  destruct (Str.split sep s); discriminate.
Qed.

Lemma split_cons (sep c : ascii) (s : string) :
  Ascii.eqb c sep = false ->
  exists h t, Str.split sep s = h :: t
              /\ Str.split sep (String c s) = String c h :: t.
Proof.
  intros E. simpl. rewrite E.
  destruct (Str.split sep s) as [|h t] eqn:Es.
  - now apply split_nonempty in Es.
  - now exists h, t.
Qed.

Lemma split_no_sep (sep : ascii) (s : string) :
  has_char sep s = false -> Str.split sep s = [s].
Proof.
  induction s as [|c s IH]; intros H; [reflexivity|].
  simpl in H. apply orb_false_iff in H as [Hc Hs].
  simpl. rewrite Hc, (IH Hs). reflexivity.
Qed.

Lemma split_app (sep : ascii) (a b : string) :
  Str.split sep (a ++ String sep b) = Str.split sep a ++ Str.split sep b.
Proof.
  induction a as [|c a IH]; simpl.
  - now rewrite Ascii.eqb_refl.
  - destruct (Ascii.eqb c sep); [now rewrite IH|].
    rewrite IH. destruct (Str.split sep a) as [|h t] eqn:Ea.
    + now apply split_nonempty in Ea.
    + reflexivity.
Qed.

Lemma last_split_no_sep (sep : ascii) (s : string) :
  has_char sep (last (Str.split sep s) EmptyString) = false.
Proof.
  induction s as [|c s IH]; [reflexivity|].
  destruct (Ascii.eqb c sep) eqn:E.
  - simpl. rewrite E.
    destruct (Str.split sep s) as [|h t] eqn:Es; [now apply split_nonempty in Es|].
    exact IH.
  - destruct (split_cons sep c s E) as (h & t & Es & ->). rewrite Es in IH.
    destruct t as [|h' t]; simpl in *; [now rewrite E | exact IH].
Qed.

(** Joining the pieces with the separator gives the string back. *)
Lemma concat_split (sep : ascii) (s : string) :
  String.concat (String sep EmptyString) (Str.split sep s) = s.
Proof.
  induction s as [|c s IH]; [reflexivity|].
  destruct (Ascii.eqb c sep) eqn:E.
  - simpl. rewrite E. apply Ascii.eqb_eq in E. subst c.
    destruct (Str.split sep s) as [|h t] eqn:Es; [now apply split_nonempty in Es|].
    simpl in *. now rewrite IH.
  - destruct (split_cons sep c s E) as (h & t & Es & ->). rewrite Es in IH.
    destruct t as [|h' t]; simpl in *; now rewrite IH.
Qed.

Lemma split_length_one (sep : ascii) (s : string) :
  List.length (Str.split sep s) = 1%nat -> has_char sep s = false.
Proof.
  induction s as [|c s IH]; [reflexivity|].
  destruct (Ascii.eqb c sep) eqn:E.
  - simpl. rewrite E. simpl.
    destruct (Str.split sep s) eqn:Es; [now apply split_nonempty in Es | discriminate].
  - destruct (split_cons sep c s E) as (h & t & Es & ->). rewrite Es in IH.
    simpl. rewrite E. exact IH.
Qed.

Lemma last_app_nonempty {A : Type} (l l' : list A) (d : A) :
  l' <> [] -> last (l ++ l') d = last l' d.
Proof.
  intros H. destruct l' as [|x l']; [contradiction|]. apply last_app_cons.
Qed.

(** The last piece of [stem.ext] is [ext] when [ext] has no dot. *)
Lemma last_split_suffix (stem ext : string) :
  has_char "." ext = false ->
  last (Str.split "." (stem ++ String "." ext)) EmptyString = ext
  /\ (1 < List.length (Str.split "." (stem ++ String "." ext)))%nat.
Proof.
  intros H. rewrite split_app, (split_no_sep _ _ H). split.
  - now rewrite last_app_cons.
  - rewrite length_app. simpl.
    destruct (Str.split "." stem) eqn:E; [now apply split_nonempty in E|].
    simpl. lia.
Qed.

(** A name with more than one piece is a stem, a dot and the last piece. *)
Lemma split_stem (name : string) :
  (1 < List.length (Str.split "." name))%nat ->
  exists stem,
    name = (stem ++ String "." (last (Str.split "." name) EmptyString))%string.
Proof.
  intros Hlen. pose proof (concat_split "." name) as Hc.
  destruct (exists_last (split_nonempty "." name)) as (l & x & E).
  rewrite E in *. rewrite last_last.
  destruct l as [|y l]; [simpl in Hlen; lia|].
  exists (String.concat "." (y :: l)). rewrite <- Hc at 1.
  clear. revert y. induction l as [|z l IH]; intros y; [reflexivity|].
  change (String.concat "." ((y :: z :: l) ++ [x]))
    with (y ++ "." ++ String.concat "." ((z :: l) ++ [x]))%string.
  rewrite IH.
  change (String.concat "." (y :: z :: l))
    with (y ++ "." ++ String.concat "." (z :: l))%string.
  now rewrite !string_app_assoc.
Qed.

(** ** File types and extensions *)

Lemma filetype_of_suffix (p : Path) (stem ext : string) :
  last_part p = Some (stem ++ String "." ext)%string ->
  has_char "." ext = false -> filetype_of p = ext.
Proof.
  intros E H. unfold filetype_of. rewrite E. now apply last_split_suffix.
Qed.

(** X1.  The file type of a path is the piece of its last component after
    the last dot: it never holds a dot; for [stem.ext] with a dot-free [ext]
    it is [ext]; and for a name without any dot it is the whole name (In[60]
    has no guard for names without extension, unlike In[55]). *)
Theorem filetype_of_last_piece (p : Path) (name : string) :
  last_part p = Some name ->
  has_char "." (filetype_of p) = false
  /\ (has_char "." name = false -> filetype_of p = name)
  /\ (forall stem ext : string,
         name = (stem ++ String "." ext)%string ->
         has_char "." ext = false -> filetype_of p = ext).
Proof.
  intros E. unfold filetype_of. rewrite E. split; [|split].
  - apply last_split_no_sep.
  - intros H. now rewrite (split_no_sep _ _ H).
  - intros stem ext -> H. now apply last_split_suffix.
Qed.

Lemma filetype_of_last_piece_witness :
  last_part (joinstr drive_root "a/clip.v2.mp4") = Some "clip.v2.mp4"
  /\ filetype_of (joinstr drive_root "a/clip.v2.mp4") = "mp4"
  /\ filetype_of (joinstr drive_root "a/README") = "README".
Proof.
  split; [reflexivity|]. split.
  - apply (proj2 (proj2 (filetype_of_last_piece
                           (joinstr drive_root "a/clip.v2.mp4") "clip.v2.mp4"
                           eq_refl)) "clip.v2" "mp4"); reflexivity.
  - apply (proj1 (proj2 (filetype_of_last_piece
                           (joinstr drive_root "a/README") "README" eq_refl))).
    reflexivity.
Defined.

Lemma discovered_filetype (fs : list Path) (video : Path) :
  In video (all_videos fs) ->
  filetype_of video = "mp4" \/ filetype_of video = "MPG".
Proof.
  intros H. apply all_videos_In in H as (_ & _ & Hm & _).
  destruct Hm as [Hm | Hm]; [left | right].
  - apply (name_matches_suffix ".mp4" video eq_refl) in Hm as (stem & E).
    now apply (filetype_of_suffix video stem "mp4").
  - apply (name_matches_suffix ".MPG" video eq_refl) in Hm as (stem & E).
    now apply (filetype_of_suffix video stem "MPG").
Qed.

(** X2.  Every row of the metadata table, before and after In[64], has the
    file type [mp4] or [MPG], whatever other dots its file name holds. *)
Theorem metadata_filetype
  (fs : list Path) (VideoCapture : Path -> Capture) (r : Row) :
  In r (metadata_df fs VideoCapture) \/ In r (patched_df fs VideoCapture) ->
  filetype r = "mp4" \/ filetype r = "MPG".
Proof.
  intros [H | H].
  - unfold metadata_df in H. apply in_map_iff in H as (video & <- & Hv).
    exact (discovered_filetype fs video Hv).
  - apply patched_df_In in H as (video & Hv & ->).
    destruct (CAP_PROP_FRAME_COUNT (VideoCapture video) <? 0)%Z;
      exact (discovered_filetype fs video Hv).
Qed.

Lemma metadata_filetype_witness :
  In (metadata_row scenario_probe (joinstr drive_root "a/video.mp4"))
     (metadata_df scenario_fs scenario_probe)
  /\ (filetype (metadata_row scenario_probe (joinstr drive_root "a/video.mp4"))
      = "mp4"
      \/ filetype (metadata_row scenario_probe (joinstr drive_root "a/video.mp4"))
         = "MPG").
Proof.
  assert (H : In (metadata_row scenario_probe (joinstr drive_root "a/video.mp4"))
                 (metadata_df scenario_fs scenario_probe)) by (left; reflexivity).
  split; [exact H|].
  exact (metadata_filetype scenario_fs scenario_probe _ (or_introl H)).
Defined.

Lemma set_add_In (x y : string) (s : list string) :
  In y (set_add x s) <-> In y s \/ y = x.
Proof.
  unfold set_add. destruct (existsb (String.eqb x) s) eqn:E.
  - split; [now left|]. intros [H | ->]; [exact H|].
    apply existsb_exists in E as (z & Hz & Ez).
    apply String.eqb_eq in Ez. now subst z.
  - rewrite in_app_iff. simpl. intuition.
Qed.

Lemma set_add_NoDup (x : string) (s : list string) :
  NoDup s -> NoDup (set_add x s).
Proof.
  intros H. unfold set_add. destruct (existsb (String.eqb x) s) eqn:E; [exact H|].
  apply NoDup_app; [exact H | repeat constructor; intros [] |].
  intros y Hy [Ey | []]. subst y.
  assert (existsb (String.eqb x) s = true); [|congruence].
  apply existsb_exists. exists x. split; [exact Hy | apply String.eqb_refl].
Qed.

Lemma fold_left_In {A : Type} (step : list string -> A -> list string)
  (P : A -> string -> Prop) :
  (forall s a y, In y (step s a) <-> In y s \/ P a y) ->
  forall l s y,
    In y (fold_left step l s) <-> In y s \/ exists a, In a l /\ P a y.
Proof.
  intros Hstep. induction l as [|a l IH]; intros s y; simpl.
  - split; [now left | intros [H | (a & [] & _)]; exact H].
  - rewrite IH, Hstep. split.
    + intros [[H | H] | (b & Hb & H)]; eauto.
    + intros [H | (b & [<- | Hb] & H)]; eauto.
Qed.

Lemma fold_left_NoDup {A : Type} (step : list string -> A -> list string) :
  (forall s a, NoDup s -> NoDup (step s a)) ->
  forall l s, NoDup s -> NoDup (fold_left step l s).
Proof.
  intros Hstep. induction l as [|a l IH]; intros s H; simpl; [exact H|].
  apply IH, Hstep, H.
Qed.

Lemma add_extension_In (exts : list string) (filepath : Path) (ext : string) :
  In ext (add_extension exts filepath)
  <-> In ext exts
      \/ (exists stem,
             last_part filepath = Some (stem ++ String "." ext)%string
             /\ has_char "." ext = false).
Proof.
  unfold add_extension. destruct (last_part filepath) as [name|].
  2:{ simpl. split; [now left | intros [H | (stem & E & _)]; [exact H | discriminate]]. }
  destruct (1 <? List.length (Str.split "." name))%nat eqn:E.
  - apply Nat.ltb_lt in E. rewrite set_add_In. split.
    + intros [H | ->]; [now left | right].
      destruct (split_stem name E) as (stem & Hs). exists stem.
      split; [now rewrite <- Hs | apply last_split_no_sep].
    + intros [H | (stem & Hs & Hd)]; [now left | right].
      injection Hs as ->. symmetry. now apply last_split_suffix.
  - apply Nat.ltb_ge in E. split; [now left|].
    intros [H | (stem & Hs & Hd)]; [exact H|]. injection Hs as ->.
    pose proof (proj2 (last_split_suffix stem ext Hd)). lia.
Qed.

Lemma add_extension_NoDup (exts : list string) (filepath : Path) :
  NoDup exts -> NoDup (add_extension exts filepath).
Proof.
  intros H. unfold add_extension.
  destruct (1 <? List.length _)%nat; [now apply set_add_NoDup | exact H].
Qed.

(** X3.  The extensions collected in In[55] are, without repetition, the
    dot-free endings [ext] of the files [stem.ext] found on the drives; a
    file whose name has no dot adds nothing. *)
Theorem extensions_collected (fs : list Path) (is_file : Path -> bool) :
  NoDup (extensions fs is_file)
  /\ forall ext : string,
      In ext (extensions fs is_file)
      <-> exists drive file stem,
          In drive DRIVES
          /\ In file (drive_files fs is_file drive)
          /\ last_part file = Some (stem ++ String "." ext)%string
          /\ has_char "." ext = false.
Proof.
  unfold extensions. split.
  - apply fold_left_NoDup; [|constructor].
    intros s drive Hs. apply fold_left_NoDup; [|exact Hs].
    intros s' f. apply add_extension_NoDup.
  - intros ext.
    rewrite (fold_left_In
               (fun exts drive => fold_left add_extension
                                    (drive_files fs is_file drive) exts)
               (fun drive ext =>
                  exists file stem,
                    In file (drive_files fs is_file drive)
                    /\ last_part file = Some (stem ++ String "." ext)%string
                    /\ has_char "." ext = false)).
    + split.
      * intros [[] | (drive & Hd & file & stem & H)]. now exists drive, file, stem.
      * intros (drive & file & stem & Hd & H). right. exists drive.
        split; [exact Hd|]. now exists file, stem.
    + intros s drive y.
      rewrite (fold_left_In add_extension
                 (fun file ext =>
                    exists stem,
                      last_part file = Some (stem ++ String "." ext)%string
                      /\ has_char "." ext = false)
                 add_extension_In).
      split.
      * intros [H | (file & Hf & stem & H)]; [now left | right].
        now exists file, stem.
      * intros [H | (file & stem & Hf & H)]; [now left | right].
        exists file. split; [exact Hf|]. now exists stem.
Qed.

Lemma extensions_collected_witness :
  In "mp4" (extensions explore_fs explore_is_file)
  /\ extensions explore_fs explore_is_file = ["mp4"].
Proof.
  split; [|reflexivity].
  apply (proj2 (extensions_collected explore_fs explore_is_file)).
  exists "11D9-5C57", (joinstr drive_root "a/video.mp4"), "video".
  repeat split; left; reflexivity.
Defined.

(** ** The size of the drives *)

Lemma fnmatch_any (name : string) : Str.fnmatch "*" name = true.
Proof.
  apply fnmatch_star. exists name, EmptyString.
  split; [now rewrite string_app_nil_r | reflexivity].
Qed.

Lemma below_last_part (dir p : Path) :
  below dir p = true -> exists name, last_part p = Some name.
Proof.
  intros H. apply below_Some in H as (x & rest & E).
  apply relative_to_Some in E as (_ & _ & Hn). simpl in Hn.
  eexists. apply last_part_names. rewrite Hn.
  destruct (names dir); discriminate.
Qed.

Lemma below_name_matches_any (dir p : Path) :
  below dir p = true -> name_matches "*" p = true.
Proof.
  intros H. destruct (below_last_part _ _ H) as (name & E).
  unfold name_matches. rewrite E. apply fnmatch_any.
Qed.

Lemma drive_files_filter (fs : list Path) (is_file : Path -> bool) (drive : string) :
  drive_files fs is_file drive
  = filter (fun p => is_file p && below (joinstr MOUNT_POINT drive) p) fs.
Proof.
  unfold drive_files, glob_rec. induction fs as [|p fs IH]; [reflexivity|].
  simpl. destruct (below (joinstr MOUNT_POINT drive) p) eqn:Eb.
  - rewrite (below_name_matches_any _ _ Eb). simpl.
    rewrite andb_true_r. destruct (is_file p); now rewrite IH.
  - simpl. rewrite andb_false_r. exact IH.
Qed.

Lemma drive_files_In (fs : list Path) (is_file : Path -> bool)
  (drive : string) (file : Path) :
  In file (drive_files fs is_file drive)
  <-> In file fs /\ is_file file = true
      /\ below (joinstr MOUNT_POINT drive) file = true.
Proof. rewrite drive_files_filter, filter_In, andb_true_iff. tauto. Qed.

Lemma fold_add_shift (l : list Z) (a : Z) :
  fold_left Z.add l a = (a + fold_left Z.add l 0)%Z.
Proof.
  revert a. induction l as [|x l IH]; intros a; simpl; [lia|].
  rewrite (IH (a + x)%Z), (IH x). lia.
Qed.

Lemma sum_cons (a : Z) (l : list Z) : sum (a :: l) = (a + sum l)%Z.
Proof. unfold sum. simpl. apply fold_add_shift. Qed.

Lemma stat_sizes_Some (st_size : Path -> option Z) (size : Path -> Z)
  (files : list Path) :
  (forall p, In p files -> st_size p = Some (size p)) ->
  stat_sizes st_size files = Some (map size files).
Proof.
  induction files as [|f files IH]; intros H; [reflexivity|].
  simpl. rewrite (H f) by now left. rewrite IH; [reflexivity|].
  intros p Hp. apply H. now right.
Qed.

Lemma stat_sizes_None (st_size : Path -> option Z) (files : list Path) (p : Path) :
  In p files -> st_size p = None -> stat_sizes st_size files = None.
Proof.
  induction files as [|f files IH]; intros Hin E; [destruct Hin|].
  destruct Hin as [<- | Hin]; simpl.
  - now rewrite E.
  - rewrite (IH Hin E). now destruct (st_size f).
Qed.

(** A path is below one drive at most. *)
Lemma below_drive_unique (d d' : string) (p : Path) :
  In d DRIVES -> In d' DRIVES ->
  below (joinstr MOUNT_POINT d) p = true ->
  below (joinstr MOUNT_POINT d') p = true -> d = d'.
Proof.
  intros Hd Hd' H H'.
  destruct (below_drive _ _ Hd H) as (x & rest & ->).
  destruct (below_drive _ _ Hd' H') as (x' & rest' & E).
  simpl in E. now injection E.
Qed.

Lemma below_other_drive (d d' : string) (p : Path) :
  In d DRIVES -> In d' DRIVES -> d <> d' ->
  below (joinstr MOUNT_POINT d) p = true ->
  below (joinstr MOUNT_POINT d') p = false.
Proof.
  intros Hd Hd' Hne H. apply not_true_is_false. intros H'.
  apply Hne. exact (below_drive_unique d d' p Hd Hd' H H').
Qed.

Lemma sum_disjoint_filters (size : Path -> Z) (f1 f2 f3 : Path -> bool)
  (l : list Path) :
  (forall p, f1 p = true -> f2 p = false /\ f3 p = false) ->
  (forall p, f2 p = true -> f3 p = false) ->
  (sum (map size (filter f1 l)) + sum (map size (filter f2 l))
   + sum (map size (filter f3 l)))%Z
  = sum (map size (filter (fun p => f1 p || (f2 p || (f3 p || false))) l)).
Proof.
  intros H1 H2. induction l as [|p l IH]; [reflexivity|].
  simpl. destruct (f1 p) eqn:E1.
  - destruct (H1 p E1) as [-> ->]. simpl. rewrite !sum_cons. lia.
  - destruct (f2 p) eqn:E2.
    + rewrite (H2 p E2). simpl. rewrite !sum_cons. lia.
    + destruct (f3 p); simpl; rewrite ?sum_cons; lia.
Qed.

(** X4.  In[54] adds up the sizes of the regular files below the three
    drives, each file once: folders, and files elsewhere (the output drive
    among them) are not counted, and [stat] is asked for no other path.  If
    [stat] fails for one of these files, the cell fails. *)
Theorem total_size_of_drive_files
  (fs : list Path) (is_file : Path -> bool) (st_size : Path -> option Z) :
  (forall size : Path -> Z,
      (forall p, In p fs -> is_file p = true ->
                 existsb (fun drive => below (joinstr MOUNT_POINT drive) p) DRIVES
                 = true ->
                 st_size p = Some (size p)) ->
      total_size fs is_file st_size
      = Some (sum (map size
                     (filter (fun p =>
                                is_file p
                                && existsb (fun drive =>
                                              below (joinstr MOUNT_POINT drive) p)
                                     DRIVES)
                             fs))))
  /\ (forall p, In p fs -> is_file p = true ->
                existsb (fun drive => below (joinstr MOUNT_POINT drive) p) DRIVES
                = true ->
                st_size p = None ->
                total_size fs is_file st_size = None).
Proof.
  split.
  - intros size H.
    assert (Hd : forall drive, In drive DRIVES ->
                 drive_size fs is_file st_size drive
                 = Some (sum (map size
                                (filter (fun p => is_file p
                                                  && below (joinstr MOUNT_POINT drive) p)
                                        fs)))).
    { intros drive Hdrive. unfold drive_size. rewrite drive_files_filter.
      rewrite (stat_sizes_Some st_size size); [reflexivity|].
      intros p Hp. apply filter_In in Hp as [Hp Hf].
      apply andb_true_iff in Hf as [Hf Hb]. apply H; try assumption.
      apply existsb_exists. now exists drive. }
    unfold total_size, DRIVES. cbn [fold_left].
    rewrite !Hd by (simpl; tauto). f_equal. rewrite Z.add_0_l.
    rewrite (sum_disjoint_filters size).
    + do 2 f_equal. apply filter_ext. intros p. simpl. now destruct (is_file p).
    + intros p Hp. apply andb_true_iff in Hp as [Hf Hb]. rewrite Hf. simpl.
      split; apply (below_other_drive "11D9-5C57" _ p);
        simpl; tauto || discriminate || assumption.
    + intros p Hp. apply andb_true_iff in Hp as [Hf Hb]. rewrite Hf. simpl.
      apply (below_other_drive "5161-4A93" _ p);
        simpl; tauto || discriminate || assumption.
  - intros p Hp Hf Hb Hs.
    apply existsb_exists in Hb as (drive & Hdrive & Hb).
    assert (Hd : drive_size fs is_file st_size drive = None).
    { unfold drive_size. rewrite (stat_sizes_None st_size _ p); [reflexivity| |exact Hs].
      apply drive_files_In. tauto. }
    unfold total_size, DRIVES. cbn [fold_left].
    unfold DRIVES in Hdrive. simpl in Hdrive.
    destruct Hdrive as [<- | [<- | [<- | []]]]; rewrite Hd;
      repeat match goal with
             | |- context [drive_size ?a ?b ?c ?d] =>
                 destruct (drive_size a b c d)
             end; reflexivity.
Qed.

Lemma total_size_of_drive_files_witness :
  total_size explore_fs explore_is_file explore_st_size = Some 1010%Z.
Proof.
  rewrite (proj1 (total_size_of_drive_files explore_fs explore_is_file
                    explore_st_size)
             (fun p => match explore_st_size p with Some z => z | None => 0%Z end)).
  - reflexivity.
  - intros p Hp _ _.
    destruct Hp as [<- | [<- | [<- | [<- | []]]]]; reflexivity.
Defined.

(** ** What discovery leaves out *)

Lemma no_part_startswith_app (pre : string) (l l' : list string) :
  no_part_startswith pre (l ++ l')
  = no_part_startswith pre l && no_part_startswith pre l'.
Proof.
  induction l as [|x l IH]; [reflexivity|].
  simpl. destruct (Str.startswith x pre); [reflexivity | exact IH].
Qed.

Lemma below_parts (dir p : Path) :
  below dir p = true -> exists rest, parts p = parts dir ++ rest.
Proof.
  intros H. apply below_Some in H as (x & rest & E).
  apply relative_to_Some in E as (Hr & _ & Hn). simpl in Hn.
  exists (x :: rest). unfold parts. rewrite Hr, Hn.
  now destruct (root dir).
Qed.

(** X5.  Whatever lies below a hidden folder is hidden, and whatever lies
    below a recycled folder is recycled; so no discovered video has a hidden
    or recycled folder anywhere above it. *)
Theorem hidden_folder_hides_content :
  (forall dir p : Path,
      below dir p = true ->
      (is_visible dir = false -> is_visible p = false)
      /\ (is_not_recycled dir = false -> is_not_recycled p = false))
  /\ (forall (fs : list Path) (dir video : Path),
         In video (all_videos fs) ->
         below dir video = true ->
         is_visible dir = true /\ is_not_recycled dir = true).
Proof.
  assert (Hclosed : forall dir p : Path,
             below dir p = true ->
             (is_visible dir = false -> is_visible p = false)
             /\ (is_not_recycled dir = false -> is_not_recycled p = false)).
  { intros dir p H. destruct (below_parts _ _ H) as (rest & E).
    unfold is_visible, is_not_recycled. rewrite E, !no_part_startswith_app.
    split; intros ->; reflexivity. }
  split; [exact Hclosed|].
  intros fs dir video Hin Hb. apply all_videos_In in Hin as (_ & _ & _ & Hv & Hr).
  destruct (Hclosed dir video Hb) as [H1 H2]. split.
  - destruct (is_visible dir); [reflexivity|]. rewrite H1 in Hv; congruence.
  - destruct (is_not_recycled dir); [reflexivity|]. rewrite H2 in Hr; congruence.
Qed.

Lemma hidden_folder_hides_content_witness :
  below (joinstr drive_root "a/.hidden") (joinstr drive_root "a/.hidden/video.mp4")
  = true
  /\ is_visible (joinstr drive_root "a/.hidden") = false
  /\ is_visible (joinstr drive_root "a/.hidden/video.mp4") = false.
Proof.
  split; [reflexivity|]. split; [reflexivity|].
  apply (proj1 (proj1 hidden_folder_hides_content
                  (joinstr drive_root "a/.hidden")
                  (joinstr drive_root "a/.hidden/video.mp4") eq_refl)).
  reflexivity.
Defined.

(** X6.  No discovered video lies on the output drive: what a run has
    transcoded is not picked up as an input by the discovery of In[59]. *)
Theorem discovered_not_on_output_drive (fs : list Path) (video : Path) :
  In video (all_videos fs) ->
  below OUTPUT_DRIVE video = false /\ video <> OUTPUT_DRIVE.
Proof.
  intros H. apply all_videos_shape in H as (drive & x & rest & Hd & ->).
  unfold DRIVES in Hd. simpl in Hd.
  destruct Hd as [<- | [<- | [<- | []]]]; split; (reflexivity || discriminate).
Qed.

Lemma discovered_not_on_output_drive_witness :
  all_videos explore_fs = [joinstr drive_root "a/video.mp4"]
  /\ In (joinstr OUTPUT_DRIVE "11D9-5C57/a/video.mp4") explore_fs
  /\ below OUTPUT_DRIVE (joinstr drive_root "a/video.mp4") = false.
Proof.
  split; [reflexivity|]. split; [simpl; tauto|].
  apply (discovered_not_on_output_drive explore_fs). left. reflexivity.
Defined.

Lemma all_videos_not_below_output (fs : list Path) (video : Path) :
  In video (all_videos fs) -> below OUTPUT_DRIVE video = false.
Proof.
  intros H. apply all_videos_shape in H as (drive & x & rest & Hd & ->).
  unfold DRIVES in Hd. simpl in Hd.
  destruct Hd as [<- | [<- | [<- | []]]]; reflexivity.
Qed.

(** X7.  The output path of a discovered video is neither that video nor
    any other discovered video: no line of [transcode.sh] asks [ffmpeg -y]
    to write over an original. *)
Theorem output_is_no_discovered_video (fs : list Path) (video out : Path) :
  In video (all_videos fs) ->
  output_filepath video = Some out ->
  out <> video /\ ~ In out (all_videos fs).
Proof.
  intros Hin Ho.
  destruct (planned_paths_below_output_drive fs video out Hin Ho) as (Hb & _).
  assert (Hno : ~ In out (all_videos fs)).
  { intros H. apply all_videos_not_below_output in H. congruence. }
  split; [|exact Hno]. intros ->. now apply Hno.
Qed.

Lemma output_is_no_discovered_video_witness :
  output_filepath (joinstr drive_root "a/video.mp4")
  = Some (joinstr OUTPUT_DRIVE "11D9-5C57/a/video.mp4")
  /\ ~ In (joinstr OUTPUT_DRIVE "11D9-5C57/a/video.mp4") (all_videos explore_fs).
Proof.
  split; [reflexivity|].
  apply (output_is_no_discovered_video explore_fs
           (joinstr drive_root "a/video.mp4")); [left|]; reflexivity.
Defined.

(** ** Writing the script *)

Lemma output_filepath_None (video : Path) :
  output_filepath video = None <-> relative_to video MOUNT_POINT = None.
Proof.
  unfold output_filepath. destruct (relative_to video MOUNT_POINT); split;
    (discriminate || reflexivity).
Qed.













(** ** The patch of In[64] *)

(** X10.  Replacing the negative frame counts by [None] keeps the rows, their
    order and every other column; afterwards no frame count is negative, so
    the mask selects nothing and running the cell again changes nothing. *)
Theorem patch_keeps_rows (df : list Row) :
  List.length (loc_set_frames_None (outlier_rows df) df) = List.length df
  /\ map file (loc_set_frames_None (outlier_rows df) df) = map file df
  /\ map filetype (loc_set_frames_None (outlier_rows df) df) = map filetype df
  /\ map fps (loc_set_frames_None (outlier_rows df) df) = map fps df
  /\ map width (loc_set_frames_None (outlier_rows df) df) = map width df
  /\ map height (loc_set_frames_None (outlier_rows df) df) = map height df
  /\ (forall r, In r (loc_set_frames_None (outlier_rows df) df) ->
                frames_negative r = false)
  /\ loc (outlier_rows (loc_set_frames_None (outlier_rows df) df))
         (loc_set_frames_None (outlier_rows df) df) = []
  /\ loc_set_frames_None
       (outlier_rows (loc_set_frames_None (outlier_rows df) df))
       (loc_set_frames_None (outlier_rows df) df)
     = loc_set_frames_None (outlier_rows df) df.
Proof.
  rewrite !loc_set_frames_None_outliers.
  induction df as [|r df (IH1 & IH2 & IH3 & IH4 & IH5 & IH6 & IH7 & IH8 & IH9)].
  - repeat split; try (intros r []).
  - unfold loc, outlier_rows in *. simpl.
    assert (Hr : frames_negative
                   (if frames_negative r then set_frames r None else r) = false)
      by (destruct (frames_negative r) eqn:E; [reflexivity | exact E]).
    rewrite Hr. simpl.
    assert (Hcol : forall (A : Type) (col : Row -> A),
               (forall v, col (set_frames r v) = col r) ->
               col (if frames_negative r then set_frames r None else r) = col r)
      by (intros A col Hc; destruct (frames_negative r); [apply Hc | reflexivity]).
    rewrite IH1, IH2, IH3, IH4, IH5, IH6, IH8, IH9.
    rewrite !Hcol by reflexivity.
    refine (conj eq_refl (conj eq_refl (conj eq_refl (conj eq_refl (conj eq_refl
             (conj eq_refl (conj _ (conj eq_refl _)))))))).
    + intros r' [<- | Hin]; [exact Hr | now apply IH7].
    + now f_equal.
Qed.

(** X11.  The patch leaves a row with a non-negative (or already missing)
    frame count exactly as it is; a table without negative frame counts is
    unchanged, and so is its total duration. *)
Theorem patch_only_touches_negative (df : list Row) :
  (forall r, In r df -> frames_negative r = false ->
             In r (loc_set_frames_None (outlier_rows df) df))
  /\ ((forall r, In r df -> frames_negative r = false) ->
      loc_set_frames_None (outlier_rows df) df = df
      /\ total_seconds (loc_set_frames_None (outlier_rows df) df)
         = total_seconds df).
Proof.
  rewrite loc_set_frames_None_outliers. split.
  - intros r Hin Hneg. apply in_map_iff. exists r. now rewrite Hneg.
  - intros H.
    assert (E : map (fun r => if frames_negative r then set_frames r None else r) df
                = df).
    { induction df as [|r df IH]; [reflexivity|]. simpl.
      rewrite (H r) by now left. f_equal. apply IH.
      intros r' Hr'. apply H. now right. }
    now rewrite E.
Qed.

Lemma patch_only_touches_negative_witness :
  In (metadata_row (fun _ => good_capture) blank_video)
     (loc_set_frames_None
        (outlier_rows [metadata_row (fun _ => corrupt_capture) blank_video;
                       metadata_row (fun _ => good_capture) blank_video])
        [metadata_row (fun _ => corrupt_capture) blank_video;
         metadata_row (fun _ => good_capture) blank_video]).
Proof.
  apply (proj1 (patch_only_touches_negative _)); [right; left|]; reflexivity.
Defined.

Lemma patch_keeps_rows_witness :
  map file (loc_set_frames_None
              (outlier_rows [metadata_row (fun _ => corrupt_capture) blank_video])
              [metadata_row (fun _ => corrupt_capture) blank_video])
  = [blank_video]
  /\ frames_negative (set_frames (metadata_row (fun _ => corrupt_capture) blank_video)
                        None) = false.
Proof.
  split.
  - exact (proj1 (proj2 (patch_keeps_rows
                           [metadata_row (fun _ => corrupt_capture) blank_video]))).
  - apply (proj1 (proj2 (proj2 (proj2 (proj2 (proj2 (proj2
             (patch_keeps_rows
                [metadata_row (fun _ => corrupt_capture) blank_video])))))))).
    left. reflexivity.
Defined.

(** ** The tree of folders *)

Lemma contains_app (tree : Treelib.Tree) (n : Treelib.Node) (nid : string) :
  Treelib.contains (tree ++ [n]) nid
  = Treelib.contains tree nid || String.eqb (Treelib.identifier n) nid.
Proof.
  unfold Treelib.contains. rewrite existsb_app. simpl. now rewrite orb_false_r.
Qed.

Lemma contains_In (tree : Treelib.Tree) (nid : string) :
  Treelib.contains tree nid = true <-> In nid (map Treelib.identifier tree).
Proof.
  unfold Treelib.contains. rewrite existsb_exists, in_map_iff. split.
  - intros (n & Hn & E). apply String.eqb_eq in E. now exists n.
  - intros (n & E & Hn). exists n. split; [exact Hn|]. now apply String.eqb_eq.
Qed.

Lemma create_node_child (tree : Treelib.Tree) (name uid pid : string) :
  Treelib.contains tree uid = false ->
  Treelib.contains tree pid = true ->
  Treelib.create_node tree name uid (Some pid)
  = Some (tree ++ [Treelib.mkNode name uid (Some pid)]).
Proof. unfold Treelib.create_node. now intros -> ->. Qed.

Lemma well_formed_snoc (tree : Treelib.Tree) (name uid pid : string) :
  well_formed tree ->
  Treelib.contains tree uid = false ->
  Treelib.contains tree pid = true ->
  well_formed (tree ++ [Treelib.mkNode name uid (Some pid)]).
Proof.
  intros [(rest & -> & Hrest) Hnd] Hu Hp. split.
  - exists (rest ++ [Treelib.mkNode name uid (Some pid)]). split; [reflexivity|].
    intros n Hn. apply in_app_iff in Hn as [Hn | [<- | []]].
    + destruct (Hrest n Hn) as (q & Hq & Hc). exists q. split; [exact Hq|].
      change (Treelib.contains
                ((Treelib.mkNode "/" "/" None :: rest)
                   ++ [Treelib.mkNode name uid (Some pid)]) q = true).
      now rewrite contains_app, Hc.
    + exists pid. split; [reflexivity|].
      change (Treelib.contains
                ((Treelib.mkNode "/" "/" None :: rest)
                   ++ [Treelib.mkNode name uid (Some pid)]) pid = true).
      now rewrite contains_app, Hp.
  - rewrite map_app. apply NoDup_app; [exact Hnd | repeat constructor; intros [] |].
    intros x Hx [<- | []].
    apply contains_In in Hx. simpl Treelib.identifier in Hx. congruence.
Qed.

Lemma well_formed_root (tree : Treelib.Tree) :
  well_formed tree -> Treelib.contains tree "/" = true.
Proof. intros [(rest & -> & _) _]. reflexivity. Qed.

(** One step of the loop over [i]: the folder is in the tree afterwards,
    nothing is removed, and a node that is added is the folder's node. *)
Lemma add_folder_step (parts : list string) (tree : Treelib.Tree) (i : nat) :
  well_formed tree ->
  ((1 <? i)%nat = true ->
   Treelib.contains tree (String.concat "/" (firstn (i - 1) parts)) = true) ->
  exists tree',
    add_folder parts (Some tree) i = Some tree'
    /\ well_formed tree'
    /\ (tree' = tree \/ tree' = tree ++ [folder_node parts i])
    /\ Treelib.contains tree' (String.concat "/" (firstn i parts)) = true.
Proof.
  intros Hwf Hparent. unfold add_folder.
  destruct (Treelib.contains tree (String.concat "/" (firstn i parts))) eqn:Ec.
  - exists tree. split; [reflexivity|]. split; [exact Hwf|].
    split; [now left | exact Ec].
  - assert (Hp : Treelib.contains tree
                   (if (1 <? i)%nat
                    then String.concat "/" (firstn (i - 1) parts) else "/")
                 = true).
    { destruct (1 <? i)%nat; [now apply Hparent | now apply well_formed_root]. }
    exists (tree ++ [folder_node parts i]). unfold folder_node.
    destruct (1 <? i)%nat; rewrite (create_node_child _ _ _ _ Ec Hp);
      (split; [reflexivity|]); (split; [now apply well_formed_snoc|]);
      (split; [now right|]); rewrite contains_app; simpl;
      now rewrite String.eqb_refl, orb_true_r.
Qed.

Lemma extends_step (tree tree' : Treelib.Tree) (n : Treelib.Node) (nid : string) :
  tree' = tree \/ tree' = tree ++ [n] ->
  Treelib.contains tree nid = true -> Treelib.contains tree' nid = true.
Proof.
  intros [-> | ->] H; [exact H|]. now rewrite contains_app, H.
Qed.

(** The loop over [i] for one video. *)
Lemma add_folders (parts : list string) (k : nat) (tree : Treelib.Tree) :
  well_formed tree ->
  exists tree',
    fold_left (add_folder parts) (seq 1 k) (Some tree) = Some tree'
    /\ well_formed tree'
    /\ (forall nid, Treelib.contains tree nid = true ->
                    Treelib.contains tree' nid = true)
    /\ (forall n, In n tree' ->
                  In n tree \/ exists i, (1 <= i <= k)%nat /\ n = folder_node parts i)
    /\ (forall i, (1 <= i <= k)%nat ->
                  Treelib.contains tree' (String.concat "/" (firstn i parts)) = true).
Proof.
  intros Hwf. induction k as [|k (t & Ef & Hwt & Hext & Hsound & Hall)].
  - exists tree. split; [reflexivity|]. split; [exact Hwf|].
    split; [tauto|]. split; [tauto|]. intros i Hi. lia.
  - rewrite seq_S, fold_left_app, Ef. simpl.
    destruct (add_folder_step parts t (S k) Hwt) as (t' & Ea & Hwt' & Hgrow & Hc).
    { intros Hlt. apply Nat.ltb_lt in Hlt.
      replace (S k - 1)%nat with k by lia. apply Hall. lia. }
    exists t'. split; [exact Ea|]. split; [exact Hwt'|]. split; [|split].
    + intros nid H. apply (extends_step t t' _ nid Hgrow). now apply Hext.
    + intros n Hn. destruct Hgrow as [-> | ->].
      * destruct (Hsound n Hn) as [H | (i & Hi & H)]; [now left | right].
        exists i. split; [lia | exact H].
      * apply in_app_iff in Hn as [Hn | [<- | []]].
        -- destruct (Hsound n Hn) as [H | (i & Hi & H)]; [now left | right].
           exists i. split; [lia | exact H].
        -- right. exists (S k). split; [lia | reflexivity].
    + intros i Hi. destruct (Nat.eq_dec i (S k)) as [-> | Hne]; [exact Hc|].
      apply (extends_step t t' _ _ Hgrow). apply Hall. lia.
Qed.

Lemma add_video_None (videos : list Path) :
  fold_left add_video videos None = None.
Proof. induction videos as [|v videos IH]; [reflexivity | exact IH]. Qed.

Lemma add_video_Some (tree : Treelib.Tree) (video rel : Path) :
  relative_to video MOUNT_POINT = Some rel ->
  add_video (Some tree) video
  = fold_left (add_folder (folders rel)) (seq 1 (List.length (folders rel)))
      (Some tree).
Proof. unfold add_video. now intros ->. Qed.

(** The loop over the videos. *)
Lemma add_videos (videos : list Path) (tree : Treelib.Tree) :
  well_formed tree ->
  (forall v, In v videos -> relative_to v MOUNT_POINT <> None) ->
  exists tree',
    fold_left add_video videos (Some tree) = Some tree'
    /\ well_formed tree'
    /\ (forall nid, Treelib.contains tree nid = true ->
                    Treelib.contains tree' nid = true)
    /\ (forall n, In n tree' ->
                  In n tree
                  \/ exists v rel i,
                      In v videos
                      /\ relative_to v MOUNT_POINT = Some rel
                      /\ (1 <= i <= List.length (folders rel))%nat
                      /\ n = folder_node (folders rel) i)
    /\ (forall v rel i,
           In v videos ->
           relative_to v MOUNT_POINT = Some rel ->
           (1 <= i <= List.length (folders rel))%nat ->
           Treelib.contains tree'
             (String.concat "/" (firstn i (folders rel))) = true).
Proof.
  revert tree. induction videos as [|v videos IH]; intros tree Hwf Hall.
  - exists tree. split; [reflexivity|]. split; [exact Hwf|].
    split; [tauto|]. split; [tauto|]. intros v rel i [].
  - destruct (relative_to v MOUNT_POINT) as [rel|] eqn:Er.
    2:{ exfalso. apply (Hall v); [now left | exact Er]. }
    destruct (add_folders (folders rel) (List.length (folders rel)) tree Hwf)
      as (t & Ef & Hwt & Hext & Hsound & Hc).
    destruct (IH t Hwt) as (t' & Ef' & Hwt' & Hext' & Hsound' & Hc').
    { intros w Hw. apply Hall. now right. }
    exists t'. cbn [fold_left]. rewrite (add_video_Some tree v rel Er), Ef.
    split; [exact Ef'|]. split; [exact Hwt'|]. split; [|split].
    + intros nid H. apply Hext', Hext, H.
    + intros n Hn. destruct (Hsound' n Hn) as [H | (w & rel' & i & Hw & H)].
      * destruct (Hsound n H) as [H' | (i & Hi & H')]; [now left | right].
        exists v, rel, i. repeat split; try assumption; try lia. now left.
      * right. exists w, rel', i. split; [now right | exact H].
    + intros w rel' i [<- | Hw] Er' Hi.
      * rewrite Er in Er'. injection Er' as <-. apply Hext', Hc, Hi.
      * now apply (Hc' w rel' i).
Qed.

Lemma add_videos_under_mount (videos : list Path) (start : option Treelib.Tree)
  (tree : Treelib.Tree) :
  fold_left add_video videos start = Some tree ->
  forall v, In v videos -> relative_to v MOUNT_POINT <> None.
Proof.
  revert start. induction videos as [|w videos IH]; intros start E v Hv;
    [destruct Hv|].
  simpl in E. destruct Hv as [<- | Hv]; [|exact (IH _ E v Hv)].
  intros Er. unfold add_video in E. rewrite Er in E.
  assert (En : match start with Some _ => @None Treelib.Tree | None => None end
               = None) by now destruct start.
  rewrite En, add_video_None in E. discriminate.
Qed.

Lemma well_formed_root_only : well_formed [Treelib.mkNode "/" "/" None].
Proof.
  split.
  - exists []. split; [reflexivity | intros n []].
  - repeat constructor. intros [].
Qed.

Lemma build_tree_under_mount (videos : list Path) :
  (forall v, In v videos -> relative_to v MOUNT_POINT <> None) ->
  exists tree,
    build_tree videos = Some tree
    /\ well_formed tree
    /\ (forall v rel i,
           In v videos ->
           relative_to v MOUNT_POINT = Some rel ->
           (1 <= i <= List.length (folders rel))%nat ->
           Treelib.contains tree
             (String.concat "/" (firstn i (folders rel))) = true)
    /\ (forall n, In n tree ->
                  n = Treelib.mkNode "/" "/" None
                  \/ exists v rel i,
                      In v videos
                      /\ relative_to v MOUNT_POINT = Some rel
                      /\ (1 <= i <= List.length (folders rel))%nat
                      /\ n = folder_node (folders rel) i).
Proof.
  intros Hall.
  destruct (add_videos videos _ well_formed_root_only Hall)
    as (t & E & Hw & _ & Hs & Hc).
  exists t. split; [exact E|]. split; [exact Hw|]. split; [exact Hc|].
  intros n Hn. destruct (Hs n Hn) as [[<- | []] | H]; [now left | now right].
Qed.

(** X12.  Building the tree of folders fails exactly when some video is not
    under the mount point; [create_node] itself never raises.  The tree that
    is built is well formed (the root [/] first, every parent present, no
    identifier twice); it has a node for every folder on the way to every
    video; and each node other than the root is the node of such a folder. *)
Theorem build_tree_outcome (videos : list Path) :
  (build_tree videos = None
   <-> exists v, In v videos /\ relative_to v MOUNT_POINT = None)
  /\ (forall tree,
         build_tree videos = Some tree ->
         well_formed tree
         /\ (forall v rel i,
                In v videos ->
                relative_to v MOUNT_POINT = Some rel ->
                (1 <= i <= List.length (folders rel))%nat ->
                Treelib.contains tree
                  (String.concat "/" (firstn i (folders rel))) = true)
         /\ (forall n, In n tree ->
                       n = Treelib.mkNode "/" "/" None
                       \/ exists v rel i,
                           In v videos
                           /\ relative_to v MOUNT_POINT = Some rel
                           /\ (1 <= i <= List.length (folders rel))%nat
                           /\ n = folder_node (folders rel) i)).
Proof.
  split.
  - split.
    + intros En.
      destruct (existsb (fun v => match relative_to v MOUNT_POINT with
                                  | None => true
                                  | Some _ => false
                                  end) videos) eqn:Ex.
      * apply existsb_exists in Ex as (v & Hv & E). exists v. split; [exact Hv|].
        now destruct (relative_to v MOUNT_POINT).
      * destruct (build_tree_under_mount videos) as (t & E & _); [|congruence].
        intros v Hv Er.
        assert (existsb (fun v => match relative_to v MOUNT_POINT with
                                  | None => true
                                  | Some _ => false
                                  end) videos = true); [|congruence].
        apply existsb_exists. exists v. split; [exact Hv | now rewrite Er].
    + intros (v & Hv & Er). destruct (build_tree videos) as [t|] eqn:E;
        [|reflexivity].
      exfalso. exact (add_videos_under_mount videos _ t E v Hv Er).
  - intros tree E.
    destruct (build_tree_under_mount videos) as (t & E' & H).
    + exact (add_videos_under_mount videos _ tree E).
    + rewrite E in E'. injection E' as <-. exact H.
Qed.

Lemma build_tree_outcome_witness :
  build_tree [parse "/tmp/clip.mp4"] = None
  /\ exists tree,
      build_tree twin_fs = Some tree
      /\ well_formed tree
      /\ Treelib.contains tree "5161-4A93/x" = true.
Proof.
  split.
  - apply (proj1 (build_tree_outcome _)). exists (parse "/tmp/clip.mp4").
    split; [left|]; reflexivity.
  - eexists. split; [reflexivity|].
    destruct (proj2 (build_tree_outcome twin_fs) _ eq_refl) as (Hw & Hc & _).
    split; [exact Hw|].
    apply (Hc (joinstr MOUNT_POINT "5161-4A93/x/clip.mp4")
              (parse "5161-4A93/x/clip.mp4") 2%nat);
      [right; left; reflexivity | reflexivity | simpl; lia].
Defined.

Lemma drive_folder_not_root (drive : string) (l : list string) :
  In drive DRIVES -> String.concat "/" (drive :: l) <> "/".
Proof.
  unfold DRIVES. simpl In.
  intros [<- | [<- | [<- | []]]]; destruct l; simpl; discriminate.
Qed.

(** X13.  On the discovered videos the tree is always built; the children of
    its root are drives, and the drive of every discovered video is one of
    them. *)
Theorem discovered_tree (fs : list Path) :
  exists tree,
    build_tree (all_videos fs) = Some tree
    /\ well_formed tree
    /\ (forall n, In n tree ->
                  Treelib.predecessor n = Some "/" ->
                  In (Treelib.identifier n) DRIVES
                  /\ Treelib.tag n = Treelib.identifier n)
    /\ (forall video, In video (all_videos fs) ->
                      exists drive, In drive DRIVES
                                    /\ nth 2 (names video) EmptyString = drive
                                    /\ Treelib.contains tree drive = true).
Proof.
  destruct (build_tree_under_mount (all_videos fs)) as (tree & E & Hw & Hc & Hs).
  { intros v Hv Er. apply (all_videos_planned fs v Hv).
    now apply output_filepath_None. }
  exists tree. split; [exact E|]. split; [exact Hw|]. split.
  - intros n Hn Hp. destruct (Hs n Hn) as [-> | (v & rel & i & Hv & Er & Hi & ->)];
      [discriminate|].
    apply all_videos_shape in Hv as (drive & x & rest & Hd & ->).
    pose proof (relative_to_app MOUNT_POINT (drive :: x :: rest)) as Er'.
    change (root MOUNT_POINT) with true in Er'. rewrite Er' in Er.
    injection Er as <-.
    assert (Hf : folders (mkPath false (drive :: x :: rest))
                 = drive :: removelast (x :: rest)) by reflexivity.
    rewrite Hf in *. unfold folder_node in *. simpl in Hp.
    destruct (1 <? i)%nat eqn:Ei.
    + exfalso. apply Nat.ltb_lt in Ei. injection Hp as Hp.
      destruct (i - 1)%nat as [|j] eqn:Ej; [lia|].
      exact (drive_folder_not_root drive _ Hd Hp).
    + apply Nat.ltb_ge in Ei. assert (i = 1%nat) as -> by lia.
      simpl. split; [exact Hd | reflexivity].
  - intros video Hv. pose proof Hv as Hshape.
    apply all_videos_shape in Hshape as (drive & x & rest & Hd & ->).
    exists drive. split; [exact Hd|]. split; [reflexivity|].
    apply (Hc _ (mkPath false (drive :: x :: rest)) 1%nat Hv).
    + pose proof (relative_to_app MOUNT_POINT (drive :: x :: rest)) as Er'.
      exact Er'.
    + change (folders (mkPath false (drive :: x :: rest)))
        with (drive :: removelast (x :: rest)).
      simpl. lia.
Qed.

Lemma discovered_tree_witness :
  exists tree,
    build_tree (all_videos twin_fs) = Some tree
    /\ Treelib.contains tree "11D9-5C57" = true
    /\ Treelib.contains tree "5161-4A93" = true.
Proof.
  destruct (discovered_tree twin_fs) as (tree & E & _ & _ & Hd).
  exists tree. split; [exact E|]. split.
  - destruct (Hd (joinstr MOUNT_POINT "11D9-5C57/x/clip.mp4")) as (d & _ & <- & H);
      [left; reflexivity | exact H].
  - destruct (Hd (joinstr MOUNT_POINT "5161-4A93/x/clip.mp4")) as (d & _ & <- & H);
      [right; left; reflexivity | exact H].
Defined.

(** ** The verification table *)

Lemma transcoded_videos_In (fs : list Path) (t : Path) :
  In t (transcoded_videos fs)
  <-> In t fs /\ below OUTPUT_DRIVE t = true
      /\ (name_matches "*.mp4" t = true \/ name_matches "*.MPG" t = true).
Proof.
  unfold transcoded_videos. rewrite in_app_iff, !glob_rec_In. tauto.
Qed.

Lemma below_output_original (t : Path) :
  below OUTPUT_DRIVE t = true ->
  exists x rest,
    t = mkPath true (names OUTPUT_DRIVE ++ x :: rest)
    /\ original_video t = Some (mkPath true (names MOUNT_POINT ++ x :: rest)).
Proof.
  intros H. apply below_Some in H as (x & rest & E).
  exists x, rest. unfold original_video. rewrite E.
  apply relative_to_Some in E as (Hr & _ & Hn). simpl in Hr, Hn.
  split; [|reflexivity]. destruct t as [r ns]. simpl in *. now subst.
Qed.

Lemma verification_record_None
  (VideoCapture : Path -> Capture) (st_size : Path -> option Z)
  (t original : Path) :
  original_video t = Some original ->
  verification_record VideoCapture st_size t = None
  <-> st_size original = None \/ st_size t = None.
Proof.
  intros E. unfold verification_record. rewrite E.
  destruct (st_size original), (st_size t); split;
    (discriminate || tauto || (intros [H | H]; discriminate)).
Qed.

Lemma verification_rows_outcome
  (VideoCapture : Path -> Capture) (st_size : Path -> option Z) (ts : list Path) :
  (verification_rows VideoCapture st_size ts = None
   <-> exists t, In t ts /\ verification_record VideoCapture st_size t = None)
  /\ (forall rows,
         verification_rows VideoCapture st_size ts = Some rows ->
         map (verification_record VideoCapture st_size) ts = map Some rows).
Proof.
  induction ts as [|t ts [IHn IHs]].
  - split.
    + split; [discriminate | intros (t & [] & _)].
    + intros rows H. injection H as <-. reflexivity.
  - split.
    + simpl. destruct (verification_record VideoCapture st_size t) as [row|] eqn:Et.
      * destruct (verification_rows VideoCapture st_size ts) as [rows|] eqn:El.
        -- split; [discriminate|]. intros (u & [<- | Hin] & E); [congruence|].
           assert (H : Some rows = None) by (apply IHn; now exists u).
           discriminate.
        -- split; [|reflexivity]. intros _.
           destruct (proj1 IHn eq_refl) as (u & Hin & E).
           exists u. split; [now right | exact E].
      * split; [|reflexivity]. intros _. exists t. split; [now left | exact Et].
    + intros rows H. simpl in H.
      destruct (verification_record VideoCapture st_size t) as [row|] eqn:Et;
        [|discriminate].
      destruct (verification_rows VideoCapture st_size ts) as [rows'|];
        [|discriminate].
      injection H as <-. simpl. rewrite Et. f_equal. now apply IHs.
Qed.

Lemma rows_transcoded_file
  (VideoCapture : Path -> Capture) (st_size : Path -> option Z)
  (ts : list Path) (rows : list (list (string * value))) :
  map (verification_record VideoCapture st_size) ts = map Some rows ->
  map (dict_get "transcoded_file") rows = map (fun t => Some (VPath t)) ts.
Proof.
  revert rows. induction ts as [|t ts IH]; intros rows E;
    destruct rows as [|row rows]; try discriminate; [reflexivity|].
  cbn [map] in E. injection E as Er Erest. cbn [map].
  f_equal; [|exact (IH rows Erest)].
  unfold verification_record in Er.
  destruct (original_video t) as [o|]; [|discriminate].
  destruct (st_size o), (st_size t); try discriminate.
  injection Er as <-. reflexivity.
Qed.

(** X14.  Every transcoded video found on the output drive has an original
    path ([relative_to] never raises in In[76]).  The cell fails exactly when
    [stat] fails for a transcoded video or for its original, for instance
    for a file on the output drive that has no original; otherwise the table
    has one row per transcoded video, in order, each holding that video as
    its [transcoded_file]. *)
Theorem verification_table_outcome
  (fs : list Path) (VideoCapture : Path -> Capture) (st_size : Path -> option Z) :
  (forall t, In t (transcoded_videos fs) -> original_video t <> None)
  /\ (transcoded_metadata fs VideoCapture st_size = None
      <-> exists t original,
          In t (transcoded_videos fs)
          /\ original_video t = Some original
          /\ (st_size original = None \/ st_size t = None))
  /\ (forall rows,
         transcoded_metadata fs VideoCapture st_size = Some rows ->
         List.length rows = List.length (transcoded_videos fs)
         /\ map (dict_get "transcoded_file") rows
            = map (fun t => Some (VPath t)) (transcoded_videos fs)).
Proof.
  assert (Horig : forall t, In t (transcoded_videos fs) ->
                            exists original, original_video t = Some original).
  { intros t Ht. apply transcoded_videos_In in Ht as (_ & Hb & _).
    destruct (below_output_original t Hb) as (x & rest & _ & E). eauto. }
  destruct (verification_rows_outcome VideoCapture st_size (transcoded_videos fs))
    as [Hn Hs].
  split; [|split].
  - intros t Ht. destruct (Horig t Ht) as (o & E). congruence.
  - unfold transcoded_metadata. rewrite Hn. split.
    + intros (t & Ht & E). destruct (Horig t Ht) as (o & Eo).
      exists t, o. split; [exact Ht|]. split; [exact Eo|].
      now apply (verification_record_None VideoCapture st_size t o Eo).
    + intros (t & o & Ht & Eo & E). exists t. split; [exact Ht|].
      now apply (verification_record_None VideoCapture st_size t o Eo).
  - intros rows E. apply Hs in E. split.
    + rewrite <- (length_map Some rows), <- E. now rewrite length_map.
    + now apply (rows_transcoded_file VideoCapture st_size).
Qed.

Lemma verification_table_outcome_witness :
  transcoded_videos explore_fs = [joinstr OUTPUT_DRIVE "11D9-5C57/a/video.mp4"]
  /\ transcoded_metadata explore_fs (fun _ => good_capture) (fun _ => None) = None.
Proof.
  split; [reflexivity|].
  apply (proj1 (proj2 (verification_table_outcome explore_fs
                         (fun _ => good_capture) (fun _ => None)))).
  exists (joinstr OUTPUT_DRIVE "11D9-5C57/a/video.mp4"),
         (joinstr drive_root "a/video.mp4").
  split; [left; reflexivity|]. split; [reflexivity | now left].
Defined.

(** X15.  A discovered video whose planned output exists is found again by
    In[76], which pairs it with that very video: when [stat] succeeds for
    both files, the row of the output has the video as its [file] and the
    video's probed frame count as its [frames]. *)
Theorem planned_output_is_verified
  (fs : list Path) (VideoCapture : Path -> Capture) (st_size : Path -> option Z)
  (video out : Path) (size transcoded_size : Z) :
  In video (all_videos fs) ->
  output_filepath video = Some out ->
  In out fs ->
  st_size video = Some size ->
  st_size out = Some transcoded_size ->
  In out (transcoded_videos fs)
  /\ original_video out = Some video
  /\ exists row,
      verification_record VideoCapture st_size out = Some row
      /\ dict_get "file" row = Some (VPath video)
      /\ dict_get "frames" row
         = Some (VInt (CAP_PROP_FRAME_COUNT (VideoCapture video)))
      /\ dict_get "transcoded_frames" row
         = Some (VInt (CAP_PROP_FRAME_COUNT (VideoCapture out))).
Proof.
  intros Hin Ho Hfs Hs Ht.
  pose proof (original_of_output video out Ho) as Eo.
  destruct (planned_paths_below_output_drive fs video out Hin Ho) as (Hb & _).
  split; [|split; [exact Eo|]].
  - apply transcoded_videos_In. split; [exact Hfs|]. split; [exact Hb|].
    pose proof Hin as Hm. apply all_videos_In in Hm as (_ & _ & Hm & _).
    apply all_videos_shape in Hin as (drive & x & rest & _ & ->).
    rewrite output_filepath_app in Ho. injection Ho as <-.
    assert (Hlast :
              last_part (mkPath true (names OUTPUT_DRIVE ++ drive :: x :: rest))
              = last_part (mkPath true (names MOUNT_POINT ++ drive :: x :: rest))).
    { rewrite !last_part_names by (simpl; discriminate). reflexivity. }
    unfold name_matches in *.
    change (mkPath true ("media" :: "andre" :: "maternal" :: drive :: x :: rest))
      with (mkPath true (names OUTPUT_DRIVE ++ drive :: x :: rest)).
    now rewrite Hlast.
  - unfold verification_record. rewrite Eo, Hs, Ht.
    eexists. split; [reflexivity|]. repeat split.
Qed.

Lemma planned_output_is_verified_witness :
  In (joinstr OUTPUT_DRIVE "11D9-5C57/a/video.mp4") (transcoded_videos explore_fs)
  /\ original_video (joinstr OUTPUT_DRIVE "11D9-5C57/a/video.mp4")
     = Some (joinstr drive_root "a/video.mp4").
Proof.
  destruct (planned_output_is_verified explore_fs (fun _ => good_capture)
              explore_st_size (joinstr drive_root "a/video.mp4")
              (joinstr OUTPUT_DRIVE "11D9-5C57/a/video.mp4") 1000 10)
    as (H1 & H2 & _); try reflexivity.
  - left. reflexivity.
  - simpl. tauto.
  - split; [exact H1 | exact H2].
Defined.

(** ** Paths and their strings *)

Lemma split_pieces_no_sep (sep : ascii) (s x : string) :
  In x (Str.split sep s) -> has_char sep x = false.
Proof.
  revert x. induction s as [|c s IH]; intros x Hx.
  - destruct Hx as [<- | []]. reflexivity.
  - destruct (Ascii.eqb c sep) eqn:E.
    + simpl in Hx. rewrite E in Hx. destruct Hx as [<- | Hx]; [reflexivity|].
      now apply IH.
    + destruct (split_cons sep c s E) as (h & t & Es & Ec). rewrite Ec in Hx.
      rewrite Es in IH. destruct Hx as [<- | Hx].
      * simpl. rewrite E. apply IH. now left.
      * apply IH. now right.
Qed.

Lemma split_concat (ns : list string) :
  ns <> [] ->
  forallb (fun n => negb (has_char "/" n)) ns = true ->
  Str.split "/" (String.concat "/" ns) = ns.
Proof.
  induction ns as [|x ns IH]; intros Hne H; [contradiction|].
  simpl in H. apply andb_true_iff in H as [Hx Hns].
  apply negb_true_iff in Hx.
  destruct ns as [|y ns]; [now apply split_no_sep|].
  change (String.concat "/" (x :: y :: ns))
    with (x ++ String "/" (String.concat "/" (y :: ns)))%string.
  rewrite split_app, (split_no_sep _ _ Hx), IH; [reflexivity | discriminate | exact Hns].
Qed.

Lemma proper_filter (ns : list string) :
  forallb proper_name ns = true ->
  filter (fun n => negb (String.eqb n "" || String.eqb n ".")) ns = ns
  /\ forallb (fun n => negb (has_char "/" n)) ns = true.
Proof.
  induction ns as [|x ns IH]; intros H; [now split|].
  simpl in H. apply andb_true_iff in H as [Hx Hns].
  unfold proper_name in Hx. apply andb_true_iff in Hx as [Hx1 Hx2].
  destruct (IH Hns) as [IH1 IH2]. simpl. rewrite Hx1, Hx2, IH1, IH2. now split.
Qed.

(** X16.  A path made from a string that does not start with exactly two
    slashes has only proper components (none is empty, is [.] or holds a
    [/]); the string of a path with proper components never starts with two
    slashes and reads back as that path, so the paths written into
    [transcode.sh] and handed to OpenCV name the files they were made from;
    and none of the strings the notebook makes a path from starts with two
    slashes. *)
Theorem parse_str_round_trip :
  (forall s : string, anchored_twice s = false -> proper (parse s) = true)
  /\ (forall p : Path,
         proper p = true ->
         anchored_twice (str p) = false /\ parse (str p) = p)
  /\ forallb (fun s => negb (anchored_twice s))
       ("/media/andre" :: "maternal" :: DRIVES) = true.
Proof.
  split; [|split; [|reflexivity]].
  - intros s _. unfold proper, parse. simpl. apply forallb_forall.
    intros x Hx. apply filter_In in Hx as [Hx Hf].
    unfold proper_name. rewrite Hf. simpl.
    now rewrite (split_pieces_no_sep _ _ _ Hx).
  - intros [r ns] H. unfold proper in H. simpl in H.
    destruct (proper_filter ns H) as [Hf Hs].
    assert (Hp : forall c t, proper_name (String c t) = true ->
                 forall u, Str.startswith (String c u) "/" = false).
    { intros c t Hx u. unfold proper_name in Hx.
      apply andb_true_iff in Hx as [_ Hx2].
      simpl in Hx2. apply negb_true_iff, orb_false_iff in Hx2 as [Hc _].
      unfold Str.startswith.
      change (String.prefix "/" (String c u))
        with (match ascii_dec "/" c with
              | left _ => String.prefix "" u
              | right _ => false
              end).
      destruct (ascii_dec "/" c) as [<- | _]; [|reflexivity].
      now rewrite Ascii.eqb_refl in Hc. }
    assert (Hhead : forall x ns', proper_name x = true ->
                    exists c t, String.concat "/" (x :: ns') = String c t
                                /\ Str.startswith (String c t) "/" = false).
    { intros x ns' Hx. destruct x as [|c x]; [discriminate|].
      destruct ns' as [|y ns']; simpl String.concat.
      - exists c, x. split; [reflexivity | exact (Hp c x Hx x)].
      - eexists c, _. split; [reflexivity | exact (Hp c x Hx _)]. }
    destruct r.
    + destruct ns as [|x ns]; [split; reflexivity|].
      assert (E : str (mkPath true (x :: ns))
                  = String "/" (String.concat "/" (x :: ns))) by reflexivity.
      simpl in H. apply andb_true_iff in H as [Hx Hns].
      destruct (Hhead x ns Hx) as (c & t & Ec & Hc).
      rewrite E. split.
      * rewrite Ec. unfold anchored_twice.
        assert (E2 : Str.startswith (String "/" (String c t)) "//" = false).
        { unfold Str.startswith in *.
          change (String.prefix "//" (String "/" (String c t)))
            with (match ascii_dec "/" "/" with
                  | left _ => String.prefix "/" (String c t)
                  | right _ => false
                  end).
          destruct (ascii_dec "/" "/"); [exact Hc | reflexivity]. }
        now rewrite E2.
      * unfold parse.
        assert (Es : Str.split "/" (String "/" (String.concat "/" (x :: ns)))
                     = EmptyString :: Str.split "/" (String.concat "/" (x :: ns)))
          by reflexivity.
        rewrite Es, split_concat by (discriminate || assumption).
        f_equal; [|exact Hf].
        generalize (String.concat "/" (x :: ns)). intros X.
        unfold Str.startswith. simpl.
        destruct (ascii_dec "/" "/") as [_ | Hne]; [|now elim Hne].
        now destruct X.
    + destruct ns as [|x ns]; [split; reflexivity|].
      assert (E : str (mkPath false (x :: ns)) = String.concat "/" (x :: ns))
        by reflexivity.
      simpl in H. pose proof H as H'. apply andb_true_iff in H' as [Hx Hns].
      destruct (Hhead x ns Hx) as (c & t & Ec & Hc).
      rewrite E. split.
      * rewrite Ec. unfold anchored_twice.
        assert (E2 : Str.startswith (String c t) "//" = false).
        { unfold Str.startswith in *.
          change (String.prefix "//" (String c t))
            with (match ascii_dec "/" c with
                  | left _ => String.prefix "/" t
                  | right _ => false
                  end).
          change (String.prefix "/" (String c t))
            with (match ascii_dec "/" c with
                  | left _ => String.prefix "" t
                  | right _ => false
                  end) in Hc.
          destruct (ascii_dec "/" c); [|reflexivity].
          destruct t; discriminate. }
        now rewrite E2.
      * unfold parse.
        rewrite split_concat by (discriminate || assumption). rewrite Hf.
        f_equal. now rewrite Ec.
Qed.

Lemma parse_str_round_trip_witness :
  proper blank_video = true
  /\ str blank_video = "/media/andre/11D9-5C57/my folder/clip.mp4"
  /\ anchored_twice (str blank_video) = false
  /\ parse (str blank_video) = blank_video.
Proof.
  split; [reflexivity|]. split; [reflexivity|].
  apply (proj1 (proj2 parse_str_round_trip)). reflexivity.
Defined.

(** ** One job per video *)

Lemma mp4_is_not_MPG (p : Path) :
  name_matches "*.mp4" p = true -> name_matches "*.MPG" p = true -> False.
Proof.
  intros H1 H2.
  apply (name_matches_suffix ".mp4" p eq_refl) in H1 as (stem & E1).
  apply (name_matches_suffix ".MPG" p eq_refl) in H2 as (stem' & E2).
  pose proof (filetype_of_suffix p stem "mp4" E1 eq_refl) as F1.
  pose proof (filetype_of_suffix p stem' "MPG" E2 eq_refl) as F2.
  rewrite F1 in F2. discriminate.
Qed.

Lemma drive_videos_NoDup (fs : list Path) (drive : string) :
  NoDup fs -> NoDup (drive_videos fs drive).
Proof.
  intros H. unfold drive_videos. do 2 apply NoDup_filter.
  apply NoDup_app; try (unfold glob_rec; now apply NoDup_filter).
  intros p H1 H2. apply glob_rec_In in H1 as (_ & _ & H1).
  apply glob_rec_In in H2 as (_ & _ & H2). exact (mp4_is_not_MPG p H1 H2).
Qed.

Lemma patch_keeps_rows_file (df : list Row) :
  map file (loc_set_frames_None (outlier_rows df) df) = map file df.
Proof.
  rewrite loc_set_frames_None_outliers, map_map. apply map_ext.
  intros r. now destruct (frames_negative r).
Qed.

(** X17.  If the traversal meets every path once, every video is discovered
    once: the two patterns and the three drives do not overlap, so the
    metadata table has one row per video and [transcode.sh] one line per
    video. *)
Theorem discovered_once (fs : list Path) (VideoCapture : Path -> Capture) :
  NoDup fs ->
  NoDup (all_videos fs)
  /\ map file (metadata_df fs VideoCapture) = all_videos fs
  /\ map file (patched_df fs VideoCapture) = all_videos fs
  /\ exists lines,
      transcode_sh fs = Some lines
      /\ map cmd (all_videos fs) = map Some lines.
Proof.
  intros H. split; [|split; [|split]].
  - unfold all_videos, DRIVES. cbn [flat_map]. rewrite app_nil_r.
    assert (Hdis : forall d d', In d DRIVES -> In d' DRIVES -> d <> d' ->
                   forall p, In p (drive_videos fs d) ->
                             In p (drive_videos fs d') -> False).
    { intros d d' Hd Hd' Hne p H1 H2.
      apply drive_videos_In in H1 as (_ & H1 & _).
      apply drive_videos_In in H2 as (_ & H2 & _).
      exact (Hne (below_drive_unique d d' p Hd Hd' H1 H2)). }
    assert (H1 : In "11D9-5C57" DRIVES) by (simpl; tauto).
    assert (H2 : In "5161-4A93" DRIVES) by (simpl; tauto).
    assert (H3 : In "9B57-8640" DRIVES) by (simpl; tauto).
    apply NoDup_app; [now apply drive_videos_NoDup | |].
    + apply NoDup_app; try now apply drive_videos_NoDup.
      intros p Hp Hp'. apply (Hdis _ _ H2 H3) with (p := p);
        [discriminate | exact Hp | exact Hp'].
    + intros p Hp Hp'. apply in_app_iff in Hp' as [Hp' | Hp'].
      * apply (Hdis _ _ H1 H2) with (p := p);
          [discriminate | exact Hp | exact Hp'].
      * apply (Hdis _ _ H1 H3) with (p := p);
          [discriminate | exact Hp | exact Hp'].
  - unfold metadata_df. rewrite map_map. apply map_id.
  - pose proof (patch_keeps_rows_file (metadata_df fs VideoCapture)) as E.
    unfold patched_df. rewrite E. unfold metadata_df. rewrite map_map.
    apply map_id.
  - destruct (transcode_lines_Some (all_videos fs) (all_videos_planned fs))
      as (lines & E & _).
    exists lines. split; [exact E|]. now apply transcode_lines_map.
Qed.

Lemma discovered_once_witness :
  NoDup twin_fs /\ NoDup (all_videos twin_fs).
Proof.
  assert (H : NoDup twin_fs).
  { repeat constructor; simpl; [intros [E | []]; discriminate | tauto]. }
  split; [exact H|].
  exact (proj1 (discovered_once twin_fs (fun _ => good_capture) H)).
Defined.
